(** * nn4omtf: input pipe helpers and runner

    A shallow embedding of [nn4omtf/network/input_pipe_helpers.py] and
    [nn4omtf/network/runner.py], with the properties of the bucketizers,
    the input pipeline and the runner's control flow stated over it.

    Conventions.
    - A Python call either returns or raises: [res A].
    - A float is [NaN], an infinity or a finite number.  Finite binary32
      and binary64 values are rationals and their comparisons are exact, so
      a finite float carries its rational value ([-0.0] and [0.0] compare
      equal and are both [Fin 0]).
    - Bin edges are finite numbers; the values that are put into bins are
      floats.
    - [np.digitize], [tf.one_hot] and the [tf.data] transformations are
      library code; they are modelled after their documented behaviour.
    - Constants of modules that are imported by the sources but are not part
      of them ([PIPE_MAPPING_TYPE], [PIPE_EXTRA_DATA_NAMES]) are Section
      variables, and so is what the pipeline takes from its environment: the
      content of the files, the clock, the number of cores and the random
      orders of the shuffles.
    - A dict that is shared between objects lives in a store and is
      handled by reference. *)

From Stdlib Require Import ZArith QArith Lqa Lia List Bool.
From stdpp Require Import gmap strings list fin_maps.
From Equations Require Import Equations.
Import ListNotations.

(** ** Python results *)

Inductive exn : Type :=
| ValueError (msg : string)
| NameError (name : string)
| ZeroDivisionError
| KeyboardInterrupt
| InvalidArgumentError (msg : string)
| OtherError (msg : string).

Inductive res (A : Type) : Type :=
| Ret (a : A)
| Raise (e : exn).
Arguments Ret {A} a.
Arguments Raise {A} e.

(** [res] is a monad; [x ← m; k] runs [k] on the value of [m] and lets an
    exception of [m] through. *)
#[export] Instance res_ret : MRet res := fun A a => Ret a.
#[export] Instance res_bind : MBind res := fun A B k m =>
  match m with
  | Ret a => k a
  | Raise e => Raise e
  end.
#[export] Instance res_fmap : FMap res := fun A B f m =>
  match m with
  | Ret a => Ret (f a)
  | Raise e => Raise e
  end.

(** ** Floats *)

Inductive float : Type :=
| NaN
| NegInf
| Fin (q : Q)
| PosInf.

Definition Qltb (a b : Q) : bool := negb (Qle_bool b a).

(** IEEE 754 [<]: false as soon as one side is NaN. *)
Definition flt (a b : float) : bool :=
  match a, b with
  | NaN, _ | _, NaN => false
  | _, NegInf => false
  | NegInf, _ => true
  | PosInf, _ => false
  | Fin _, PosInf => true
  | Fin p, Fin q => Qltb p q
  end.

(** IEEE 754 [<=]. *)
Definition fle (a b : float) : bool :=
  match a, b with
  | NaN, _ | _, NaN => false
  | NegInf, _ => true
  | _, PosInf => true
  | _, NegInf => false
  | PosInf, _ => false
  | Fin p, Fin q => Qle_bool p q
  end.

Definition is_nan (a : float) : bool :=
  match a with NaN => true | _ => false end.

(** The order numpy sorts and searches floats by: the IEEE order with NaN
    after everything else ([a < b || (b != b && a == a)]). *)
Definition np_less (a b : float) : bool :=
  flt a b || (is_nan b && negb (is_nan a)).

(** ** numpy.digitize *)

Module np.

(** [side='right']: the number of leading edges that are not above [v];
    on an ascending array this is the insertion point numpy's binary
    search returns. *)
Fixpoint searchsorted_right (a : list Q) (v : float) : nat :=
  match a with
  | [] => 0
  | e :: a' =>
      if np_less v (Fin e) then 0%nat else S (searchsorted_right a' v)
  end.

(** The monotonicity check of [digitize]: repeated leading values are
    skipped, the first two distinct values pick the direction, and the
    rest must not go against it. *)
Fixpoint skip_repeated (last : Q) (a : list Q) : list Q :=
  match a with
  | [] => []
  | x :: a' => if Qeq_bool x last then skip_repeated last a' else a
  end.

Fixpoint no_descent (last : Q) (a : list Q) : bool :=
  match a with
  | [] => true
  | next :: a' => if Qltb next last then false else no_descent next a'
  end.

Fixpoint no_ascent (last : Q) (a : list Q) : bool :=
  match a with
  | [] => true
  | next :: a' => if Qltb last next then false else no_ascent next a'
  end.

Inductive direction : Type := Increasing | Decreasing | NotMonotonic.

Definition monotonicity (a : list Q) : direction :=
  match a with
  | [] => Increasing
  | last :: a' =>
      match skip_repeated last a' with
      | [] => Increasing
      | next :: rest =>
          if Qltb last next
          then (if no_descent next rest then Increasing else NotMonotonic)
          else (if no_ascent next rest then Decreasing else NotMonotonic)
      end
  end.

(** [np.digitize(x, bins)] with the default [right=False]. *)
Definition digitize (x : float) (bins : list Q) : res Z :=
  match monotonicity bins with
  | NotMonotonic =>
      Raise (ValueError "bins must be monotonically increasing or decreasing")
  | Decreasing =>
      Ret (Z.of_nat (length bins)
           - Z.of_nat (searchsorted_right (rev bins) x))%Z
  | Increasing => Ret (Z.of_nat (searchsorted_right bins x))
  end.

End np.

(** ** tf.one_hot *)

Module tf.

(** A vector of [depth] entries, [1] at position [indices] and [0]
    elsewhere; an index outside [0, depth) gives the zero vector. *)
Definition one_hot (indices : Z) (depth : nat) : list Q :=
  map (fun j => if (indices =? Z.of_nat j)%Z then 1%Q else 0%Q) (seq 0 depth).

End tf.

(** ** input_pipe_helpers.py: the bucketizers of [_deserialize] *)

Definition prod_bucket_fn (out_class_bins : list Q) (x : float) : res Z :=
  np.digitize x out_class_bins.

(** Sign: 0 for negative, 1 for positive. *)
Definition prod_sgn_bucket_fn (x : float) : res Z :=
  np.digitize x [0%Q].

(** [omtf_bins = out_class_bins.copy(); omtf_bins.insert(0, 0)] *)
Definition omtf_bins (out_class_bins : list Q) : list Q :=
  0%Q :: out_class_bins.

Definition omtf_bucket_fn (out_class_bins : list Q) (x : float) : res Z :=
  k ← np.digitize x (omtf_bins out_class_bins); Ret (k - 1)%Z.

Definition omtf_sgn_bucket_fn (x : float) : res Z :=
  k ← np.digitize x [(-1.5)%Q; 0%Q]; Ret (k - 1)%Z.

(** ** input_pipe_helpers.py: [_deserialize] *)

(** The two hits variants of [HITS_TYPE]; every value other than
    [HITS_TYPE.FULL] selects the reduced array. *)
Inductive hits_kind : Type := REDUCED | FULL.

(** The features [tf.parse_single_example] reads from one record.  The
    components [prod_arr[PROD_IDX_PT]], [prod_arr[PROD_IDX_SIGN]],
    [omtf_arr[OMTF_IDX_PT]] and [omtf_arr[OMTF_IDX_SIGN]] are fields. *)
Record example : Type := {
  ex_hits_reduced : list float;
  ex_hits_full : list float;
  ex_prod_pt : float;
  ex_prod_sign : float;
  ex_omtf_pt : float;
  ex_omtf_sign : float;
  ex_pt_code : float
}.

Inductive scalar : Type :=
| SFloat (x : float)
| SInt (k : Z).

(** hits, pt label, sign label, extra data *)
Definition event : Type :=
  list float * list Q * list Q * list (string * scalar).

(** [tf.py_func]: what the Python function raises reaches the caller of the
    iterator as a TensorFlow error, [InvalidArgumentError] for a
    [ValueError], the only exception the bucketizers raise. *)
Definition py_func {A : Type} (r : res A) : res A :=
  match r with
  | Ret a => Ret a
  | Raise (ValueError msg) => Raise (InvalidArgumentError msg)
  | Raise _ => Raise (OtherError "UnknownError")
  end.

(** [dict([(k, v) for k, v in zip(names, vals)])] for tensors [vals]: only
    the tensors that [zip] pairs with a name are outputs, and only those
    are evaluated. *)
Definition fetch_named (names : list string) (vals : list (res scalar))
    : res (list (string * scalar)) :=
  mapM (fun kv => v ← kv.2; Ret (kv.1, v)) (zip names vals).

Section Deserialize.

Variable serialized : Type.
Variable parse_single_example : serialized -> res example.
Variable PIPE_EXTRA_DATA_NAMES : list string.

Definition _deserialize (x : serialized) (hits_type : hits_kind)
    (out_len : nat) (out_class_bins : list Q) : res event :=
  examples ← parse_single_example x;
  let hits_arr :=
    match hits_type with
    | FULL => ex_hits_full examples
    | REDUCED => ex_hits_reduced examples
    end in
  let pt_code := ex_pt_code examples in
  prod_pt_k ← py_func (prod_bucket_fn out_class_bins (ex_prod_pt examples));
  let prod_pt_label := tf.one_hot prod_pt_k out_len in
  prod_sign_k ← py_func (prod_sgn_bucket_fn (ex_prod_sign examples));
  let prod_sign_label := tf.one_hot prod_sign_k 2 in
  let omtf_sign_k := py_func (omtf_sgn_bucket_fn (ex_omtf_sign examples)) in
  let omtf_pt_k :=
    py_func (omtf_bucket_fn out_class_bins (ex_omtf_pt examples)) in
  let vals := [
    Ret (SFloat pt_code);
    Ret (SFloat (ex_prod_pt examples));
    Ret (SInt prod_pt_k);
    Ret (SInt prod_sign_k);
    Ret (SFloat (ex_omtf_pt examples));
    SInt <$> omtf_pt_k;
    SInt <$> omtf_sign_k
  ] in
  edata_dict ← fetch_named PIPE_EXTRA_DATA_NAMES vals;
  Ret (hits_arr, prod_pt_label, prod_sign_label, edata_dict).

End Deserialize.

(** ** tf.data *)

(** A dataset element together with the name of the file it was read from.
    The name is a ghost tag: no transformation looks at it. *)
Definition sourced (X : Type) : Type := string * X.

Module data.

Section Interleave.

Context {F X : Type} (map_func : F -> list X).

Definition slot_size (s : option (list X)) : nat :=
  match s with Some it => S (length it) | None => 0 end.

Definition work (ring : list (option (list X))) (input : list F) : nat :=
  sum_list_with slot_size ring + length ring
  + sum_list_with (fun f => 2 + length (map_func f)) input.

(** The iterator of [Dataset.interleave].  [ring] holds the
    [cycle_length] slots in visiting order, the current slot first; a
    slot is empty or holds the rest of an open element.  Each equation
    is one turn of the iterator's loop:
    - an open slot yields its next item, and after [block_length] items
      in a row the cycle advances;
    - an open slot at its end is closed and the cycle advances;
    - an empty slot opens the next input element, if there is one;
    - an empty slot with the input used up is never filled again and
      leaves the cycle. *)
Equations? cycle (block_length : nat) (ring : list (option (list X)))
    (block_index : nat) (input : list F) : list X
    by wf (work ring input) lt :=
  cycle _ [] _ _ := [];
  cycle block_length (Some (x :: it) :: ring) block_index input :=
    x :: (if decide (S block_index = block_length)
          then cycle block_length (ring ++ [Some it]) 0 input
          else cycle block_length (Some it :: ring) (S block_index) input);
  cycle block_length (Some [] :: ring) _ input :=
    cycle block_length (ring ++ [None]) 0 input;
  cycle block_length (None :: ring) _ (f :: input) :=
    cycle block_length (Some (map_func f) :: ring) 0 input;
  cycle block_length (None :: ring) _ [] := cycle block_length ring 0 [].
Proof.
  all: unfold work; rewrite ?sum_list_with_app, ?length_app; simpl; lia.
Qed.

(** [Dataset.interleave(map_func, cycle_length, block_length)] *)
Definition interleave (cycle_length block_length : nat) (input : list F)
    : res (list X) :=
  if decide (cycle_length = 0%nat)
  then Raise (InvalidArgumentError "`cycle_length` must be > 0")
  else if decide (block_length = 0%nat)
  then Raise (InvalidArgumentError "`block_length` must be > 0")
  else Ret (cycle block_length (replicate cycle_length None) 0 input).

(** [Dataset.flat_map(map_func)] *)
Definition flat_map (input : list F) : res (list X) :=
  Ret (concat (map map_func input)).

End Interleave.

(** [Dataset.repeat(count)], as the first [n] elements of the repeated
    stream.  [epoch e] is the content of pass number [e] over the
    repeated dataset; a negative [count] repeats without end, unless the
    dataset is empty. *)
Definition repeat {X : Type} (count : Z) (epoch : nat -> res (list X))
    (n : nat) : res (list X) :=
  let passes := if (count <? 0)%Z then n else Z.to_nat count in
  es ← mapM epoch (seq 0 passes);
  Ret (take n (concat es)).

(** [Dataset.batch(batch_size)]: consecutive groups of [batch_size]
    elements, the last one possibly shorter. *)
Definition batch {X : Type} (batch_size : nat) (l : list X)
    : list (list X) :=
  map (fun i => take batch_size (drop (i * batch_size) l))
      (seq 0 ((length l + batch_size - 1) / batch_size)).

End data.

(** ** input_pipe_helpers.py: [setup_input_pipe] *)

(** What one [get_next] gives: an event, or a batch of events. *)
Inductive pulled : Type :=
| One (e : sourced event)
| Many (b : list (sourced event)).

Record placeholder : Type := { ph_shape : list nat }.

(** The initializable iterator: bound to the fed file names, it gives the
    results of the first [n] pulls (fewer when the stream ends earlier), or
    the first exception raised in the course of them. *)
Definition iterator : Type := list string -> nat -> res (list pulled).

Section InputPipe.

Variable serialized : Type.
Variable parse_single_example : serialized -> res example.
Variable PIPE_EXTRA_DATA_NAMES : list string.

(** [PIPE_MAPPING_TYPE] and Python's [==] on its values. *)
Variable mapping_t : Type.
Variable mapping_eqb : mapping_t -> mapping_t -> bool.
Variables INTERLEAVE FLAT_MAP : mapping_t.

(** The records of a TFRecord file read with a compression type. *)
Variable read_records : string -> option string -> list serialized.

(** [multiprocessing.cpu_count()] and [int(time.time())]. *)
Variable cpu_count : nat.
Variable now : Z.

(** [shuffle(buffer_size=files_n)] holds the whole list of file names in
    its buffer: pass number [e] sees them in the order [file_order e]. *)
Variable file_order : nat -> list string -> list string.

(** The shuffle of batches ([buffer_size], [seed], first [n] outputs). *)
Variable batch_shuffle :
  nat -> Z -> (nat -> res (list pulled)) -> nat -> res (list pulled).

Definition _new_tfrecord_dataset (filename : string)
    (compression : option string) (parallel_calls : nat)
    (in_type : hits_kind) (out_len : nat) (out_class_bins : list Q)
    : list (sourced (res event)) :=
  let dataset := read_records filename compression in
  let map_fn x :=
    _deserialize serialized parse_single_example PIPE_EXTRA_DATA_NAMES
      x in_type out_len out_class_bins in
  map (fun x => (filename, map_fn x)) dataset.

(** An element is delivered, or its deserialization error is raised. *)
Definition deliver (e : sourced (res event)) : res (sourced event) :=
  v ← e.2; Ret (e.1, v).

Definition setup_input_pipe (files_n : nat) (name : string)
    (in_type : hits_kind) (out_class_bins : list Q)
    (compression_type : option string) (batch_size : option nat)
    (shuffle : bool) (reps : Z) (mapping_type : mapping_t)
    : res (placeholder * iterator) :=
  let cores_count := cpu_count in
  let files_placeholder := {| ph_shape := [files_n] |} in
  let out_len := (length out_class_bins + 1)%nat in
  let map_fn filename :=
    _new_tfrecord_dataset filename compression_type cores_count
      in_type out_len out_class_bins in
  dataset ←
    (if mapping_eqb mapping_type INTERLEAVE
     then Ret (data.interleave map_fn files_n 1)
     else if mapping_eqb mapping_type FLAT_MAP
     then Ret (data.flat_map map_fn)
     else Raise (ValueError
            "mapping_type param in not one of PIPE_MAPPING_TYPE constants."));
  let iterator (feed : list string) (n : nat) : res (list pulled) :=
    if decide (length feed = files_n) then
      if decide (files_n = 0%nat)
      then Raise (InvalidArgumentError
                    "buffer_size must be greater than zero.")
      else
        let files_dataset e := file_order e feed in
        let repeated := data.repeat reps (fun e => dataset (files_dataset e)) in
        match batch_size with
        | None => es ← repeated n; mapM (fun e => One <$> deliver e) es
        | Some batch_size =>
            if decide (batch_size = 0%nat)
            then Raise (InvalidArgumentError
                          "Batch size must be greater than zero.")
            else
              let batched m :=
                es ← repeated (m * batch_size)%nat;
                mapM (fun b => Many <$> mapM deliver b)
                     (data.batch batch_size es) in
              if shuffle
              then batch_shuffle batch_size now batched n
              else batched n
        end
    else Raise (ValueError "Cannot feed value: shape mismatch")
  in
  Ret (files_placeholder, iterator).

End InputPipe.

(** ** runner.py: parameters *)

Inductive pyval : Type :=
| VNone
| VBool (b : bool)
| VInt (z : Z)
| VFloat (q : Q)
| VStr (s : string)
| VBins (l : list Q)
| VHits (k : hits_kind).

(** Dict objects live in a store and are handled through references: two
    names bound to one reference see each other's updates. *)
Definition ref : Type := nat.
Abbreviation dict := (gmap string pyval).
Abbreviation store := (gmap ref dict).

Definition getitem (r : ref) (k : string) (σ : store) : option pyval :=
  d ← σ !! r; d !! k.

(** [k in d] *)
Definition contains (r : ref) (k : string) (σ : store) : bool :=
  bool_decide (is_Some (getitem r k σ)).

(** [d[k] = v] *)
Definition setitem (r : ref) (k : string) (v : pyval) (σ : store) : store :=
  alter (insert k v) r σ.

(** The network object, as far as the runner reads it. *)
Record OMTFNN : Type := {
  nn_name : string;
  pt_class : list Q;
  in_type : hits_kind
}.

Inductive phase : Type := TRAIN | VALID | TEST.

Module OMTFRunner.

Definition DEFAULT_PARAMS : dict :=
  list_to_map [
    ("valid_batch_size", VInt 1000);
    ("batch_size", VInt 1000);
    ("sess_prefix", VStr "");
    ("shuffle", VBool false);
    ("acc_ival", VInt 1000);
    ("epochs", VInt 1);
    ("steps", VInt (-1));
    ("logdir", VStr ".");
    ("verbose", VBool false);
    ("learning_rate", VFloat 0.001);
    ("shiftval", VInt 600);
    ("nullval", VInt 0);
    ("limit_valid_examples", VNone);
    ("limit_test_examples", VNone);
    ("debug", VBool false);
    ("log", VStr "none")
  ].

(** The class attribute [OMTFRunner.DEFAULT_PARAMS] is bound to one dict
    object for the life of the program. *)
Definition DEFAULT_PARAMS_ref : ref := 0%nat.

(** The store once the class statement has run. *)
Definition class_store : store := {[ DEFAULT_PARAMS_ref := DEFAULT_PARAMS ]}.

Record self (OMTFDataset : Type) : Type := {
  dataset : OMTFDataset;
  network : OMTFNN;
  params : ref
}.
Arguments dataset {OMTFDataset} _.
Arguments network {OMTFDataset} _.
Arguments params {OMTFDataset} _.

(** [for key, val in kw.items(): if key in params: params[key] = val] *)
Definition override (params : ref) (kw : list (string * pyval))
    (σ : store) : store :=
  foldl (fun σ kv => if contains params kv.1 σ
                     then setitem params kv.1 kv.2 σ else σ) σ kw.

(** [for k, v in var.items(): params[k] = v] *)
Definition update (params : ref) (var : list (string * pyval))
    (σ : store) : store :=
  foldl (fun σ kv => setitem params kv.1 kv.2 σ) σ var.

Section Init.

Variable OMTFDataset : Type.
(** [str.format] of one value with the empty format spec. *)
Variable py_format : pyval -> string.

(** The keys of [var], the variables of one session. *)
Definition session_variables : list string :=
  ["timestamp"; "sess_name"; "in_type"; "out_class_bins"; "out_len"].

(** [timestamp] is what [time.strftime] returns at the call. *)
Definition __init__ (dataset : OMTFDataset) (network : OMTFNN)
    (kw : list (string * pyval)) (timestamp : string) (σ : store)
    : res (self OMTFDataset * store) :=
  let params := DEFAULT_PARAMS_ref in
  let σ := override params kw σ in
  match getitem params "sess_prefix" σ with
  | None => Raise (OtherError "KeyError: 'sess_prefix'")
  | Some pref =>
      let out_class_bins := pt_class network in
      let var := [
        ("timestamp", VStr timestamp);
        ("sess_name",
         VStr (py_format pref +:+ nn_name network +:+ "_" +:+ timestamp));
        ("in_type", VHits (in_type network));
        ("out_class_bins", VBins out_class_bins);
        ("out_len", VInt (Z.of_nat (length out_class_bins) + 1))
      ] in
      let σ := update params var σ in
      Ret ({| dataset := dataset; network := network; params := params |},
           σ)
  end.

(** [self.params[k]] *)
Definition param (s : self OMTFDataset) (k : string) (σ : store)
    : option pyval :=
  getitem (params s) k σ.

Definition _update_params (s : self OMTFDataset)
    (params_dict : list (string * pyval)) (σ : store) : store :=
  update (params s) params_dict σ.

End Init.

(** *** train *)

(** The fields of [opt = dict_to_object(self.params)] that decide the
    control flow of [train]. *)
Record options : Type := {
  steps : Z;
  acc_ival : Z;
  debug : bool;
  log : string
}.

Inductive effect : Type :=
| OpenLog (file : string)
| CloseLog (file : string)
| Finish
| Save.

(** [_log_init]: the text handles [self.log_hnd], in the order of the
    dict. *)
Definition log_hnd_init (log : string) (ph : phase)
    : list (phase * option string) :=
  if bool_decide (log ∈ ["txt"; "both"]) then
    match ph with
    | TRAIN => [(TRAIN, Some "train.txt"); (VALID, Some "valid.txt");
                (TEST, None)]
    | _ => [(TRAIN, None); (VALID, None); (TEST, Some "test.txt")]
    end
  else [(TRAIN, None); (VALID, None); (TEST, None)].

(** The name [tf] is assigned in [_log_init] ([tf = open(tname, 'w')]), so
    it is a local variable of the whole function and never the module
    [tensorflow]: what it holds when the summary writers are to be made is
    the handle of [train.txt], or nothing. *)
Definition tf_local (log : string) (ph : phase) : option string :=
  if bool_decide (log ∈ ["txt"; "both"]) then
    match ph with
    | TRAIN => Some "train.txt"
    | _ => None
    end
  else None.

(** [_log_init] after [os.makedirs]: the text files it opens, and how it
    ends.  With [log] one of ['tb'], ['both'] the expression
    [tf.summary.FileWriter] is evaluated on the local [tf] and raises. *)
Definition _log_init (log : string) (ph : phase) : list effect * res unit :=
  let opened := map OpenLog (omap snd (log_hnd_init log ph)) in
  if bool_decide (log ∈ ["tb"; "both"]) then
    match tf_local log ph with
    | Some _ =>
        (opened,
         Raise (OtherError
           "AttributeError: '_io.TextIOWrapper' object has no attribute 'summary'"))
    | None =>
        (opened,
         Raise (OtherError
           "UnboundLocalError: local variable 'tf' referenced before assignment"))
    end
  else (opened, Ret ()).

(** [_log_deinit]: every handle that is not [None] is closed. *)
Definition _log_deinit (log_hnd : list (phase * option string))
    : list effect :=
  map CloseLog (omap snd log_hnd).

(** What the collaborators of [train] do.  The calls inside the loop are
    indexed by the step counter [i]; each returns or raises, and a
    [KeyboardInterrupt] delivered during a call is raised by it. *)
Record train_env : Type := {
  makedirs : res unit;            (* os.makedirs in _log_init *)
  setup : res unit;               (* pipes, restore, graph nodes *)
  fetch : Z -> res bool;          (* train_pipe.fetch(): false for None *)
  run_step : Z -> res unit;       (* sess.run of the training step *)
  show_dbg : Z -> res bool;       (* True: stop debugging *)
  validate : Z -> res unit;       (* the validation section *)
  _next_tick : Z -> res unit;     (* self._next_tick() *)
  finish : res unit;              (* self.network.finish() *)
  save : res unit                 (* self.network.save() *)
}.

Inductive stop : Type :=
| BudgetReached
| StreamExhausted
| DebuggerQuit
| Interrupted.

Inductive loop_result : Type :=
| Stopped (why : stop) (i : Z)
| Escaped (e : exn) (i : Z).

(** One pass through the body of the [while]: [Some why] for a [break],
    [None] when the body runs to its end. *)
Definition body (env : train_env) (opt : options) (i : Z)
    : res (option stop) :=
  got ← fetch env i;
  if negb got then Ret (Some StreamExhausted) else
  _ ← run_step env i;
  quit ← (if debug opt then show_dbg env i else Ret false);
  if (quit : bool) then Ret (Some DebuggerQuit) else
  _ ← (if (acc_ival opt =? 0)%Z then Raise ZeroDivisionError
       else if (i mod acc_ival opt =? 0)%Z then validate env i
       else Ret ());
  _ ← _next_tick env i;
  Ret None.

(** The [try: while ...: ... except KeyboardInterrupt:] statement;
    [None] when [fuel] passes do not end the loop. *)
Fixpoint loop (env : train_env) (opt : options) (fuel : nat) (i : Z)
    : option loop_result :=
  match fuel with
  | O => None
  | S fuel =>
      if (i <=? steps opt)%Z || (steps opt <? 0)%Z then
        match body env opt i with
        | Ret None => loop env opt fuel (i + 1)%Z
        | Ret (Some why) => Some (Stopped why i)
        | Raise KeyboardInterrupt => Some (Stopped Interrupted i)
        | Raise e => Some (Escaped e i)
        end
      else Some (Stopped BudgetReached i)
  end.

(** [train]: the effects on the log files and the model, and how the call
    ends. *)
Definition train (env : train_env) (opt : options) (fuel : nat)
    : option (list effect * res unit) :=
  match makedirs env with
  | Raise e => Some ([], Raise e)
  | Ret _ =>
      let log_hnd := log_hnd_init (log opt) TRAIN in
      let (opened, initialized) := _log_init (log opt) TRAIN in
      match initialized with
      | Raise e => Some (opened, Raise e)
      | Ret _ =>
          match setup env with
          | Raise e => Some (opened, Raise e)
          | Ret _ =>
              match loop env opt fuel 1 with
              | None => None
              | Some (Escaped e _) => Some (opened, Raise e)
              | Some (Stopped _ _) =>
                  match finish env with
                  | Raise e => Some (opened, Raise e)
                  | Ret _ =>
                      match save env with
                      | Raise e => Some (opened ++ [Finish], Raise e)
                      | Ret _ =>
                          Some (opened ++ [Finish; Save]
                                ++ _log_deinit log_hnd,
                                Ret ())
                      end
                  end
              end
          end
      end
  end.

(** *** test *)

(** The names bound at the top level of [runner.py]: its imports and the
    class. *)
Definition module_globals : list string := [
  "tf"; "time"; "os"; "threading"; "subprocess";
  "OMTFDataset"; "OMTFNN";
  "init_uninitialized_variables"; "dict_to_object";
  "collect_statistics"; "setup_metrics"; "setup_trainer";
  "OMTFInputPipe";
  "PIPE_EXTRA_DATA_NAMES"; "NN_HOLDERS_NAMES"; "PHASE_NAME"; "CNAMES";
  "OMTFRunner"
].

(** The builtins the module refers to. *)
Definition builtins : list string := [
  "print"; "len"; "dict"; "zip"; "str"; "float"; "input"; "range"; "list";
  "open"; "KeyboardInterrupt"; "ValueError"; "True"; "False"; "None"
].

(** A name that is not local is looked up in the module, then in the
    builtins. *)
Definition load_global (name : string) : res string :=
  if bool_decide (name ∈ module_globals) then Ret name
  else if bool_decide (name ∈ builtins) then Ret name
  else Raise (NameError name).

Record test_env : Type := {
  make_pipe : res unit;                       (* OMTFInputPipe(...) *)
  restore : res (list string);                (* the tuple restore returns *)
  call_setup_accuracy : string -> res unit;
  call_collect_statistics : string -> res (list (string * Q));
  add_results : res unit                      (* add_log, add_statistics *)
}.

Record summary : Type := {
  sess_name : string;
  accuracy : list (string * Q);
  model : string
}.

Section Test.

Variable OMTFDataset : Type.

Definition test (s : self OMTFDataset) (kw : list (string * pyval))
    (env : test_env) (σ : store) : res summary * store :=
  let σ := _update_params OMTFDataset s kw σ in
  (match param OMTFDataset s "sess_name" σ with
   | Some (VStr name) =>
       let opt_sess_name := name +:+ "/test" in
       _ ← make_pipe env;
       handles ← restore env;
       match handles with
       | [_; net_in; net_pt_out; net_sgn_out] =>
           setup_accuracy ← load_global "setup_accuracy";
           _ ← call_setup_accuracy env setup_accuracy;
           collect_statistics ← load_global "collect_statistics";
           acc_d ← call_collect_statistics env collect_statistics;
           _ ← add_results env;
           Ret {| sess_name := opt_sess_name;
                  accuracy := acc_d;
                  model := nn_name (network s) |}
       | _ => Raise (ValueError "wrong number of values to unpack")
       end
   | Some _ => Raise (OtherError "TypeError: sess_name is not a str")
   | None => Raise (OtherError "AttributeError: sess_name")
   end, σ).

End Test.

(** *** _get_verbose_printer *)

Section Printer.

Variable OMTFDataset : Type.
(** [k >= lvl] for a [HITS_TYPE] constant [k]; the constants are defined
    outside this module. *)
Variable hits_ge : hits_kind -> Z -> res bool.

(** [v >= lvl] for an int [lvl]; a bool counts as 0 or 1. *)
Definition py_ge (v : pyval) (lvl : Z) : res bool :=
  match v with
  | VBool b => Ret (lvl <=? Z.b2z b)%Z
  | VInt z => Ret (lvl <=? z)%Z
  | VFloat q => Ret (Qle_bool (inject_Z lvl) q)
  | VHits k => hits_ge k lvl
  | VNone | VStr _ | VBins _ =>
      Raise (OtherError "TypeError: '>=' not supported")
  end.

(** The lines that [vp(str)] prints, for [vp] the lambda returned;
    [self.params] is read when [vp] is called. *)
Definition _get_verbose_printer (s : self OMTFDataset) (lvl : Z)
    : string -> store -> res (list string) :=
  fun str σ =>
    match param OMTFDataset s "verbose" σ with
    | None => Raise (OtherError "KeyError: 'verbose'")
    | Some verbose =>
        b ← py_ge verbose lvl;
        Ret (if (b : bool) then ["OMTFRunner: " +:+ str] else [])
    end.

End Printer.

(** *** test_many_models *)

Section TestMany.

Variable OMTFDataset : Type.
Variable py_format : pyval -> string.

(** The [for] loop over [models_list].  [strftime j] is what
    [time.strftime] returns in the construction of runner number [j], and
    [env model] is what the collaborators of [test] do for [model]. *)
Fixpoint for_model (dataset : OMTFDataset) (models_list : list OMTFNN)
    (kw : list (string * pyval)) (strftime : nat -> string)
    (env : OMTFNN -> test_env) (j : nat) (test_results : list summary)
    (σ : store) : res (list summary) :=
  match models_list with
  | [] => Ret test_results
  | model :: models_list =>
      '(runner, σ) ← __init__ OMTFDataset py_format dataset model kw
                       (strftime j) σ;
      let (r, σ) := test OMTFDataset runner [] (env model) σ in
      res ← r;
      for_model dataset models_list kw strftime env (S j)
        (test_results ++ [res]) σ
  end.

Definition test_many_models (dataset : OMTFDataset)
    (models_list : list OMTFNN) (kw : list (string * pyval))
    (strftime : nat -> string) (env : OMTFNN -> test_env) (σ : store)
    : res (list summary) :=
  for_model dataset models_list kw strftime env 0 [] σ.

End TestMany.

End OMTFRunner.

(** ** Ordered edge lists and bins *)

(** Edges in ascending order, repeated edges allowed. *)
Fixpoint ascending (E : list Q) : bool :=
  match E with
  | [] => true
  | e :: E' =>
      match E' with
      | [] => true
      | e' :: _ => Qle_bool e e' && ascending E'
      end
  end.

(** Edges in ascending order, all distinct. *)
Fixpoint strictly_ascending (E : list Q) : bool :=
  match E with
  | [] => true
  | e :: E' =>
      match E' with
      | [] => true
      | e' :: _ => Qltb e e' && strictly_ascending E'
      end
  end.

(** No edge is negative. *)
Definition nonnegative (E : list Q) : bool := forallb (Qle_bool 0) E.

(** [v] lies in the half-open bin [i] of [E]: at or above edge [i-1] (if
    there is one) and below edge [i] (if there is one). *)
Definition in_bin (E : list Q) (i : nat) (v : float) : Prop :=
  (i = 0%nat \/ exists lo, E !! (i - 1)%nat = Some lo /\ fle (Fin lo) v = true)
  /\ (i = length E \/ exists hi, E !! i = Some hi /\ flt v (Fin hi) = true).

(** [v] lies strictly inside bin [i] of [E]. *)
Definition inside_bin (E : list Q) (i : nat) (v : float) : Prop :=
  (i = 0%nat \/ exists lo, E !! (i - 1)%nat = Some lo /\ flt (Fin lo) v = true)
  /\ (i = length E \/ exists hi, E !! i = Some hi /\ flt v (Fin hi) = true).

(** The float [v] is the number [e]. *)
Definition is_number (v : float) (e : Q) : Prop :=
  exists q, v = Fin q /\ (q == e)%Q.

(** Round robin over [ls]: [m] times, the first item of each list in
    turn. *)
Fixpoint rounds {X : Type} (m : nat) (ls : list (list X)) : list X :=
  match m with
  | O => []
  | S m => omap head ls ++ rounds m (map tail ls)
  end.

(** The files the events of one pull were read from. *)
Definition sources (p : pulled) : list string :=
  match p with
  | One e => [e.1]
  | Many b => b.*1
  end.

(** The files behind the [n] pulls that follow the first [s] pulls. *)
Definition window (it : iterator) (feed : list string) (s n : nat)
    : res (list string) :=
  l ← it feed (s + n)%nat; Ret (concat (map sources (drop s l))).

(** ** Sample data *)

Definition sample_event (pt : Q) : example := {|
  ex_hits_reduced := [Fin 1; Fin 0];
  ex_hits_full := [Fin 1; Fin 0; Fin 3];
  ex_prod_pt := Fin pt;
  ex_prod_sign := Fin 1;
  ex_omtf_pt := Fin pt;
  ex_omtf_sign := Fin (-1);
  ex_pt_code := Fin 7
|}.

(** File A holds three records and file B one. *)
Definition unequal_files (filename : string) (compression : option string)
    : list example :=
  if decide (filename = "A")
  then [sample_event 5; sample_event 15; sample_event 25]
  else if decide (filename = "B") then [sample_event 35] else [].

(** Files A and B hold two records each. *)
Definition equal_files (filename : string) (compression : option string)
    : list example :=
  if decide (filename = "A") then [sample_event 5; sample_event 15]
  else if decide (filename = "B") then [sample_event 25; sample_event 35]
  else [].

(** A shuffle that keeps the order of the files in even passes and
    reverses it in odd passes. *)
Definition alternate (e : nat) (l : list string) : list string :=
  if Nat.even e then l else reverse l.

(** The pipe over sample files, with the mapping types [0] (interleave) and
    [1] (flat map). *)
Definition sample_pipe (read_records : string -> option string -> list example)
    (file_order : nat -> list string -> list string) (reps : Z)
    (mapping_type : nat) : res (placeholder * iterator) :=
  setup_input_pipe example Ret [] nat Nat.eqb 0%nat 1%nat read_records
    4%nat 0%Z file_order (fun _ _ d => d)
    2%nat "train" REDUCED [10%Q; 20%Q; 30%Q] None None false reps mapping_type.

(** A [str.format] that renders strings as they are. *)
Definition sample_format (v : pyval) : string :=
  match v with
  | VStr s => s
  | _ => "?"
  end.

(** ** The training loop *)

(** The condition of the [while]. *)
Definition in_budget (opt : OMTFRunner.options) (i : Z) : Prop :=
  (i <= OMTFRunner.steps opt \/ OMTFRunner.steps opt < 0)%Z.

(** What makes the loop stop at step [i], for each way of stopping. *)
Definition stops_at (env : OMTFRunner.train_env) (opt : OMTFRunner.options)
    (why : OMTFRunner.stop) (i : Z) : Prop :=
  match why with
  | OMTFRunner.BudgetReached =>
      (0 <= OMTFRunner.steps opt < i)%Z
  | OMTFRunner.StreamExhausted =>
      in_budget opt i /\ OMTFRunner.fetch env i = Ret false
  | OMTFRunner.DebuggerQuit =>
      in_budget opt i
      /\ OMTFRunner.debug opt = true
      /\ OMTFRunner.fetch env i = Ret true
      /\ OMTFRunner.run_step env i = Ret ()
      /\ OMTFRunner.show_dbg env i = Ret true
  | OMTFRunner.Interrupted =>
      in_budget opt i /\ OMTFRunner.body env opt i = Raise KeyboardInterrupt
  end.

(** Collaborators that never fail, with a training stream that never ends
    and an operator who leaves the debugger at the first screen. *)
Definition sample_session : OMTFRunner.train_env := {|
  OMTFRunner.makedirs := Ret ();
  OMTFRunner.setup := Ret ();
  OMTFRunner.fetch := fun _ => Ret true;
  OMTFRunner.run_step := fun _ => Ret ();
  OMTFRunner.show_dbg := fun _ => Ret true;
  OMTFRunner.validate := fun _ => Ret ();
  OMTFRunner._next_tick := fun _ => Ret ();
  OMTFRunner.finish := Ret ();
  OMTFRunner.save := Ret ()
|}.

(** A model whose [restore] returns the four handles [test] unpacks. *)
Definition sample_test_env : OMTFRunner.test_env := {|
  OMTFRunner.make_pipe := Ret ();
  OMTFRunner.restore := Ret ["init"; "net_in"; "net_pt_out"; "net_sgn_out"];
  OMTFRunner.call_setup_accuracy := fun _ => Ret ();
  OMTFRunner.call_collect_statistics :=
    fun _ => Ret [("pt", 0.5%Q); ("sgn", 0.5%Q)];
  OMTFRunner.add_results := Ret ()
|}.

Definition sample_network : OMTFNN := {|
  nn_name := "net";
  pt_class := [10%Q; 20%Q; 30%Q];
  in_type := REDUCED
|}.

(** ** More of the input pipe *)

(** The events of one pull. *)
Definition events (p : pulled) : list (sourced event) :=
  match p with
  | One e => [e]
  | Many b => b
  end.

(** The number of records in the files of a feed. *)
Definition total_records {serialized : Type}
    (read_records : string -> option string -> list serialized)
    (compression : option string) (feed : list string) : nat :=
  sum_list_with (fun f => length (read_records f compression)) feed.

(** The pipe over sample files for a number of files and a batch size. *)
Definition sample_pipe_with (files_n : nat) (batch_size : option nat)
    (read_records : string -> option string -> list example)
    (reps : Z) (mapping_type : nat) : res (placeholder * iterator) :=
  setup_input_pipe example Ret [] nat Nat.eqb 0%nat 1%nat read_records
    4%nat 0%Z (fun _ l => l) (fun _ _ d => d)
    files_n "train" REDUCED [10%Q; 20%Q; 30%Q] None batch_size false reps
    mapping_type.

(** ** More of the training loop *)

(** The session [env] with another validation section. *)
Definition with_validate (env : OMTFRunner.train_env)
    (validate : Z -> res unit) : OMTFRunner.train_env := {|
  OMTFRunner.makedirs := OMTFRunner.makedirs env;
  OMTFRunner.setup := OMTFRunner.setup env;
  OMTFRunner.fetch := OMTFRunner.fetch env;
  OMTFRunner.run_step := OMTFRunner.run_step env;
  OMTFRunner.show_dbg := OMTFRunner.show_dbg env;
  OMTFRunner.validate := validate;
  OMTFRunner._next_tick := OMTFRunner._next_tick env;
  OMTFRunner.finish := OMTFRunner.finish env;
  OMTFRunner.save := OMTFRunner.save env
|}.

(** * Properties *)

(** ** Order of floats *)

Lemma Qltb_lt (a b : Q) : Qltb a b = true <-> (a < b)%Q.
Proof.
  unfold Qltb. rewrite negb_true_iff, <- not_true_iff_false, Qle_bool_iff.
  split; [apply Qnot_le_lt | apply Qlt_not_le].
Qed.

Lemma Qltb_ge (a b : Q) : Qltb a b = false <-> (b <= a)%Q.
Proof.
  unfold Qltb. rewrite negb_false_iff. apply Qle_bool_iff.
Qed.

Lemma np_less_number (v : float) (e : Q) : np_less v (Fin e) = flt v (Fin e).
Proof. unfold np_less. simpl. apply orb_false_r. Qed.

Lemma flt_fle (a b : float) : flt a b = true -> fle a b = true.
Proof.
  destruct a, b; simpl; try done.
  rewrite Qltb_lt, Qle_bool_iff. apply Qlt_le_weak.
Qed.

(** Above an edge means not below any smaller edge. *)
Lemma not_below_smaller (e lo : Q) (v : float) :
  (e <= lo)%Q -> fle (Fin lo) v = true -> flt v (Fin e) = false.
Proof.
  destruct v; simpl; try done.
  rewrite Qle_bool_iff, Qltb_ge. intros. by apply Qle_trans with lo.
Qed.

Lemma is_number_fle (v : float) (e : Q) : is_number v e -> fle (Fin e) v = true.
Proof. intros (q & -> & Hq). simpl. apply Qle_bool_iff. rewrite Hq. apply Qle_refl. Qed.

Lemma is_number_flt (v : float) (e hi : Q) :
  is_number v e -> (e < hi)%Q -> flt v (Fin hi) = true.
Proof. intros (q & -> & Hq) H. simpl. apply Qltb_lt. by rewrite Hq. Qed.

(** ** Ascending lists *)

Lemma ascending_tail (e : Q) (E : list Q) :
  ascending (e :: E) = true -> ascending E = true.
Proof. destruct E; simpl; [done | by intros [_ ?]%andb_true_iff]. Qed.

Lemma ascending_head (e : Q) (E : list Q) (j : nat) (x : Q) :
  ascending (e :: E) = true -> E !! j = Some x -> (e <= x)%Q.
Proof.
  revert e j. induction E as [|e' E IH]; intros e j; [done |].
  intros [He HE]%andb_true_iff. apply Qle_bool_iff in He.
  destruct j as [|j]; simpl.
  - by intros [= <-].
  - intros Hx. apply Qle_trans with e'; [done | by eapply IH].
Qed.

Lemma strictly_ascending_ascending (E : list Q) :
  strictly_ascending E = true -> ascending E = true.
Proof.
  induction E as [|e [|e' E] IH]; try done.
  intros [He HE]%andb_true_iff. apply andb_true_iff. split; [|by apply IH].
  apply Qle_bool_iff, Qlt_le_weak. by apply Qltb_lt.
Qed.

Lemma strictly_ascending_next (E : list Q) (j : nat) (e hi : Q) :
  strictly_ascending E = true -> E !! j = Some e -> E !! S j = Some hi ->
  (e < hi)%Q.
Proof.
  revert j. induction E as [|e0 [|e1 E] IH]; intros j; try done.
  intros [He HE]%andb_true_iff. destruct j as [|j].
  - intros [= <-] [= <-]. by apply Qltb_lt.
  - intros ??. by eapply (IH j HE).
Qed.

(** ** numpy.digitize *)

(** The example of the documentation of [numpy.digitize]. *)
Example digitize_documented :
  map (fun x => np.digitize (Fin x) [0%Q; 1%Q; 2.5%Q; 4%Q; 10%Q])
      [0.2%Q; 6.4%Q; 3%Q; 1.6%Q]
  = [Ret 1%Z; Ret 4%Z; Ret 3%Z; Ret 2%Z].
Proof. reflexivity. Qed.

(** Descending edges number the bins from the other end. *)
Example digitize_descending :
  map (fun x => np.digitize (Fin x) [10%Q; 4%Q; 2.5%Q; 1%Q; 0%Q])
      [0.2%Q; 6.4%Q; 3%Q; 1.6%Q]
  = [Ret 4%Z; Ret 1%Z; Ret 2%Z; Ret 3%Z].
Proof. reflexivity. Qed.

Lemma no_descent_ascending (x : Q) (l : list Q) :
  ascending (x :: l) = true -> np.no_descent x l = true.
Proof.
  revert x. induction l as [|y l IH]; intros x; [done |].
  intros [Hx Hl]%andb_true_iff. simpl.
  apply Qle_bool_iff, Qltb_ge in Hx. rewrite Hx. by apply IH.
Qed.

Lemma skip_repeated_ascending (last next : Q) (a rest : list Q) :
  ascending (last :: a) = true ->
  np.skip_repeated last a = next :: rest ->
  (last < next)%Q /\ ascending (next :: rest) = true.
Proof.
  induction a as [|x a IH]; [done |].
  intros [Hx Ha]%andb_true_iff. apply Qle_bool_iff in Hx. simpl.
  destruct (Qeq_bool x last) eqn:Heq.
  - apply Qeq_bool_iff in Heq. apply IH.
    destruct a as [|y a]; [done |].
    apply andb_true_iff in Ha as [Hy Ha]. apply andb_true_iff. split; [|done].
    apply Qle_bool_iff. apply Qle_bool_iff in Hy. by rewrite <- Heq.
  - intros [= -> ->]. split; [|done].
    apply Qeq_bool_neq in Heq. apply Qle_lteq in Hx as [?|Hx]; [done |].
    by rewrite Hx in Heq.
Qed.

Lemma monotonicity_ascending (E : list Q) :
  ascending E = true -> np.monotonicity E = np.Increasing.
Proof.
  destruct E as [|last a]; [done |]. intros HE. unfold np.monotonicity.
  destruct (np.skip_repeated last a) as [|next rest] eqn:Hskip; [done |].
  destruct (skip_repeated_ascending _ _ _ _ HE Hskip) as [Hlt Hrest].
  apply Qltb_lt in Hlt. rewrite Hlt.
  by rewrite (no_descent_ascending _ _ Hrest).
Qed.

Lemma searchsorted_right_le (a : list Q) (v : float) :
  (np.searchsorted_right a v <= length a)%nat.
Proof. induction a as [|e a IH]; simpl; [lia |]. destruct (np_less _ _); lia. Qed.

(** On ascending edges the search returns the bin the value lies in. *)
Lemma searchsorted_right_in_bin (E : list Q) (i : nat) (v : float) :
  ascending E = true -> in_bin E i v -> np.searchsorted_right E v = i.
Proof.
  revert i. induction E as [|e E IH]; intros i HE [Hlo Hhi].
  - destruct Hhi as [-> | (hi & Hhi & _)]; done.
  - simpl. rewrite np_less_number. destruct i as [|i].
    + destruct Hhi as [? | (hi & [= <-] & Hv)]; [done |]. by rewrite Hv.
    + destruct Hlo as [? | (lo & Hlo & Hv)]; [done |].
      simpl in Hlo. rewrite Nat.sub_0_r in Hlo.
      rewrite (not_below_smaller e lo v); [| |done].
      2:{ destruct i as [|i]; [injection Hlo as ->; apply Qle_refl |].
          by eapply ascending_head. }
      f_equal. apply IH; [by eapply ascending_tail |]. split.
      * destruct i as [|i]; [by left | right].
        exists lo. simpl. by rewrite Nat.sub_0_r.
      * destruct Hhi as [Hlen | Hhi]; [left; simpl in Hlen; lia | by right].
Qed.

(** A value at or above edge number [j] is put above that edge. *)
Lemma searchsorted_right_above_edge (E : list Q) (j : nat) (e : Q)
    (v : float) :
  ascending E = true -> E !! j = Some e -> fle (Fin e) v = true ->
  (j < np.searchsorted_right E v)%nat.
Proof.
  revert j. induction E as [|e0 E IH]; intros j HE Hj Hv; [done |].
  simpl. rewrite np_less_number, (not_below_smaller e0 e v); [| |done].
  - destruct j as [|j]; [lia |].
    apply ascending_tail in HE. specialize (IH j HE Hj Hv). lia.
  - destruct j as [|j]; [injection Hj as ->; apply Qle_refl |].
    by eapply ascending_head.
Qed.

Lemma digitize_ascending (E : list Q) (v : float) :
  ascending E = true ->
  np.digitize v E = Ret (Z.of_nat (np.searchsorted_right E v)).
Proof. intros HE. unfold np.digitize. by rewrite monotonicity_ascending. Qed.




(** ** The bucketizers *)

Lemma ascending_omtf_bins (E : list Q) :
  ascending E = true -> nonnegative E = true -> ascending (omtf_bins E) = true.
Proof.
  destruct E as [|e E]; [done |]. intros HE [He _]%andb_true_iff.
  unfold omtf_bins. change (Qle_bool 0 e && ascending (e :: E) = true).
  by rewrite He.
Qed.


(** How the reference sign bucketizer splits the floats. *)
Lemma omtf_sgn_bucket_fn_cases (x : float) :
  (flt x (Fin (-1.5)) = true /\ omtf_sgn_bucket_fn x = Ret (-1)%Z)
  \/ (fle (Fin (-1.5)) x = true /\ flt x (Fin 0) = true
      /\ omtf_sgn_bucket_fn x = Ret 0%Z)
  \/ (flt x (Fin 0) = false /\ omtf_sgn_bucket_fn x = Ret 1%Z).
Proof.
  unfold omtf_sgn_bucket_fn, np.digitize.
  change (np.monotonicity [(-1.5)%Q; 0%Q]) with np.Increasing.
  cbn [np.searchsorted_right]. rewrite !np_less_number.
  destruct (flt x (Fin (-1.5))) eqn:H1; [by left | right].
  destruct (flt x (Fin 0)) eqn:H2; [left | by right].
  split; [|done]. destruct x; try done.
  simpl in *. by apply Qle_bool_iff, Qltb_ge.
Qed.

Lemma prod_sgn_bucket_fn_cases (x : float) :
  (flt x (Fin 0) = true /\ prod_sgn_bucket_fn x = Ret 0%Z)
  \/ (flt x (Fin 0) = false /\ prod_sgn_bucket_fn x = Ret 1%Z).
Proof.
  unfold prod_sgn_bucket_fn, np.digitize.
  change (np.monotonicity [0%Q]) with np.Increasing.
  cbn [np.searchsorted_right]. rewrite np_less_number.
  destruct (flt x (Fin 0)); [by left | by right].
Qed.

(** C1, as stated, does not hold: the reference sign bucketizer sends the
    failure sentinel [-2.0] to [-1], not to [0]; it sends [5.0] to [1], not
    to [2]; and it sends [-5.0] to [-1], not to [1]. *)
Lemma omtf_sgn_bucket_fn_not_0_2_1 :
  omtf_sgn_bucket_fn (Fin (-2)) <> Ret 0%Z
  /\ omtf_sgn_bucket_fn (Fin 5) <> Ret 2%Z
  /\ omtf_sgn_bucket_fn (Fin (-5)) <> Ret 1%Z.
Proof. by vm_compute. Qed.

(** C1, amended: the reference sign bucketizer maps its input into the
    three indices [-1], [0], [1].  The failure sentinel [-2.0], like every
    value below [-1.5] and so [-5.0] as well, gives [-1]; a negative value
    from [-1.5] on, such as [-1.0], gives [0]; [5.0], like every value that
    is not below [0], gives [1]. *)
Theorem omtf_sgn_bucket_fn_three_valued :
  omtf_sgn_bucket_fn (Fin (-2)) = Ret (-1)%Z
  /\ omtf_sgn_bucket_fn (Fin 5) = Ret 1%Z
  /\ omtf_sgn_bucket_fn (Fin (-5)) = Ret (-1)%Z
  /\ omtf_sgn_bucket_fn (Fin (-1)) = Ret 0%Z
  /\ forall x : float,
       (flt x (Fin (-1.5)) = true /\ omtf_sgn_bucket_fn x = Ret (-1)%Z)
       \/ (fle (Fin (-1.5)) x = true /\ flt x (Fin 0) = true
           /\ omtf_sgn_bucket_fn x = Ret 0%Z)
       \/ (flt x (Fin 0) = false /\ omtf_sgn_bucket_fn x = Ret 1%Z).
Proof.
  repeat split; try by vm_compute. apply omtf_sgn_bucket_fn_cases.
Qed.

(** C2, as stated, does not hold for every ordered edge list: with the
    single edge [-5.0] and the value [3.0] the label policy gives class [1]
    and the reference policy gives [-1]. *)
Lemma omtf_bucket_fn_differs_negative_edge :
  ascending [(-5)%Q] = true
  /\ fle (Fin 0) (Fin 3) = true
  /\ prod_bucket_fn [(-5)%Q] (Fin 3) = Ret 1%Z
  /\ omtf_bucket_fn [(-5)%Q] (Fin 3) = Ret (-1)%Z
  /\ omtf_bucket_fn [(-5)%Q] (Fin 3) <> prod_bucket_fn [(-5)%Q] (Fin 3).
Proof. by vm_compute. Qed.

(** C2, amended: for every ascending edge list [E] without a negative edge
    and every value [v >= 0], the reference policy and the label policy
    return the same class index, one of the [length E + 1] classes. *)
Theorem omtf_bucket_fn_agrees (E : list Q) (v : float) :
  ascending E = true -> nonnegative E = true -> fle (Fin 0) v = true ->
  exists k : Z,
    omtf_bucket_fn E v = Ret k /\ prod_bucket_fn E v = Ret k
    /\ (0 <= k < Z.of_nat (length E + 1))%Z.
Proof.
  intros HE Hnn Hv. exists (Z.of_nat (np.searchsorted_right E v)).
  unfold omtf_bucket_fn, prod_bucket_fn.
  rewrite !digitize_ascending by auto using ascending_omtf_bins.
  unfold omtf_bins. cbn [np.searchsorted_right]. rewrite np_less_number.
  rewrite (not_below_smaller 0 0 v) by (done || apply Qle_refl).
  repeat split.
  - cbn. f_equal. lia.
  - lia.
  - pose proof (searchsorted_right_le E v). lia.
Qed.

Lemma omtf_bucket_fn_agrees_witness :
  exists k : Z,
    omtf_bucket_fn [10%Q; 20%Q; 30%Q] (Fin 20) = Ret k
    /\ prod_bucket_fn [10%Q; 20%Q; 30%Q] (Fin 20) = Ret k
    /\ (0 <= k < Z.of_nat (length [10%Q; 20%Q; 30%Q] + 1))%Z.
Proof.
  apply (omtf_bucket_fn_agrees [10%Q; 20%Q; 30%Q] (Fin 20)); reflexivity.
Defined.

(** C3: for ascending edges [E = [e1..ek]], a value strictly inside bin [i]
    gets index [i]; a value equal to edge number [j] (counted from 0) gets
    a bucket above that edge, which is bucket [j + 1] when the edges are
    distinct; and the index always lies in [[0, k]]. *)
Theorem prod_bucket_fn_bins (E : list Q) (v : float) :
  ascending E = true ->
  (forall i : nat, inside_bin E i v -> prod_bucket_fn E v = Ret (Z.of_nat i))
  /\ (forall (j : nat) (e : Q), E !! j = Some e -> is_number v e ->
      exists k : Z, prod_bucket_fn E v = Ret k /\ (Z.of_nat j < k)%Z)
  /\ (strictly_ascending E = true ->
      forall (j : nat) (e : Q), E !! j = Some e -> is_number v e ->
      prod_bucket_fn E v = Ret (Z.of_nat (S j)))
  /\ (exists k : Z,
        prod_bucket_fn E v = Ret k /\ (0 <= k <= Z.of_nat (length E))%Z).
Proof.
  intros HE. unfold prod_bucket_fn. rewrite digitize_ascending by done.
  split_and!.
  - intros i [Hlo Hhi]. do 2 f_equal. apply searchsorted_right_in_bin; [done |].
    split; [|done]. destruct Hlo as [? | (lo & ? & ?)]; [by left | right].
    exists lo. eauto using flt_fle.
  - intros j e Hj Hv. eexists. split; [done |].
    pose proof (searchsorted_right_above_edge E j e v HE Hj
                  (is_number_fle v e Hv)). lia.
  - intros Hstrict j e Hj Hv. do 2 f_equal.
    apply searchsorted_right_in_bin; [done |]. split.
    + right. exists e. simpl. rewrite Nat.sub_0_r. eauto using is_number_fle.
    + destruct (E !! S j) as [hi|] eqn:Hhi.
      * right. exists hi. split; [done |].
        eapply is_number_flt; [done |]. by eapply strictly_ascending_next.
      * left. apply lookup_ge_None in Hhi. apply lookup_lt_Some in Hj. lia.
  - eexists. split; [done |]. pose proof (searchsorted_right_le E v). lia.
Qed.

Lemma prod_bucket_fn_bins_witness :
  prod_bucket_fn [10%Q; 20%Q; 30%Q] (Fin 15) = Ret 1%Z
  /\ prod_bucket_fn [10%Q; 20%Q; 30%Q] (Fin 20) = Ret 2%Z.
Proof.
  split.
  - apply (proj1 (prod_bucket_fn_bins [10%Q; 20%Q; 30%Q] (Fin 15) eq_refl) 1%nat).
    split; right; eexists; (split; [reflexivity | reflexivity]).
  - apply (proj1 (proj2 (proj2 (prod_bucket_fn_bins [10%Q; 20%Q; 30%Q] (Fin 20)
                                  eq_refl)))
             eq_refl 1%nat 20%Q eq_refl).
    exists 20%Q. split; reflexivity.
Defined.





(** ** The [res] monad *)

Lemma bind_Ret {A B : Type} (m : res A) (k : A -> res B) (b : B) :
  m ≫= k = Ret b -> exists a, m = Ret a /\ k a = Ret b.
Proof. destruct m as [a|e]; [eauto | done]. Qed.

Lemma fmap_Ret {A B : Type} (f : A -> B) (m : res A) (b : B) :
  f <$> m = Ret b -> exists a, m = Ret a /\ b = f a.
Proof. destruct m as [a|e]; [|done]. intros [= <-]. eauto. Qed.

Lemma mapM_Ret {A B : Type} (f : A -> res B) (l : list A) (k : list B) :
  mapM f l = Ret k -> Forall2 (fun a b => f a = Ret b) l k.
Proof.
  revert k. induction l as [|a l IH]; intros k.
  - intros [= <-]. constructor.
  - simpl. intros (b & Hb & (k' & Hk' & [= <-])%bind_Ret)%bind_Ret.
    constructor; auto.
Qed.

(** ** Dataset.interleave *)

(** The example of the documentation of [Dataset.interleave]. *)
Example interleave_documented :
  data.interleave (fun x : nat => replicate 6 x) 2 4 [1; 2; 3; 4; 5]%nat
  = Ret [1; 1; 1; 1; 2; 2; 2; 2; 1; 1; 2; 2;
         3; 3; 3; 3; 4; 4; 4; 4; 3; 3; 4; 4;
         5; 5; 5; 5; 5; 5]%nat.
Proof. reflexivity. Qed.

Section InterleaveFacts.

Context {F X : Type} (map_func : F -> list X).

(** The iterator yields every item of every element, once. *)
Lemma cycle_length (block_length : nat) (ring : list (option (list X)))
    (block_index : nat) (input : list F) :
  (ring = [] -> input = []) ->
  length (data.cycle map_func block_length ring block_index input)
  = (sum_list_with (fun s => from_option length 0%nat s) ring
     + sum_list_with (fun f => length (map_func f)) input)%nat.
Proof.
  funelim (data.cycle map_func block_length ring block_index input);
    simp cycle; simpl; intros Hring.
  - by rewrite Hring.
  - rewrite H by (by destruct ring). rewrite sum_list_with_app. simpl. lia.
  - f_equal. destruct (decide (S block_index = block_length)).
    + rewrite H by (by destruct ring). rewrite sum_list_with_app. simpl. lia.
    + rewrite H0 by done. simpl. lia.
  - by rewrite H.
  - rewrite H by done. simpl. lia.
Qed.

Lemma cycle_nothing_left (ring : list (option (list X))) :
  Forall (fun s => from_option length 0%nat s = 0%nat) ring ->
  data.cycle map_func 1 ring 0 [] = [].
Proof.
  intros H. apply length_zero_iff_nil. rewrite cycle_length by done.
  simpl. induction H as [|s ring Hs _ IH]; simpl; lia.
Qed.

(** With [block_length = 1], a run of open slots that all have an item
    left yields the first item of each, and the slots go to the end of the
    cycle with the rest. *)
Lemma cycle_round (ls : list (list X)) (acc : list (option (list X))) :
  Forall (fun l => l <> []) ls ->
  data.cycle map_func 1 (map Some ls ++ acc) 0 []
  = omap head ls
    ++ data.cycle map_func 1 (acc ++ map Some (map tail ls)) 0 [].
Proof.
  intros H. revert acc. induction H as [|l ls Hl _ IH]; intros acc.
  - simpl. by rewrite app_nil_r.
  - destruct l as [|x l]; [done |]. simpl. simp cycle. simpl.
    rewrite <- app_assoc, IH. by rewrite <- app_assoc.
Qed.

(** The same for empty slots with as many input elements waiting. *)
Lemma cycle_open (fs : list F) (acc : list (option (list X))) :
  Forall (fun f => map_func f <> []) fs ->
  data.cycle map_func 1 (replicate (length fs) None ++ acc) 0 fs
  = omap head (map map_func fs)
    ++ data.cycle map_func 1 (acc ++ map Some (map tail (map map_func fs))) 0 [].
Proof.
  intros H. revert acc. induction H as [|f fs Hf _ IH]; intros acc.
  - simpl. by rewrite app_nil_r.
  - simpl. simp cycle. destruct (map_func f) as [|x l]; [done |].
    simp cycle. simpl. rewrite <- app_assoc, IH. by rewrite <- app_assoc.
Qed.

Lemma cycle_rounds (m : nat) (ls : list (list X)) :
  Forall (fun l => length l = m) ls ->
  data.cycle map_func 1 (map Some ls) 0 [] = rounds m ls.
Proof.
  revert ls. induction m as [|m IH]; intros ls Hls.
  - apply cycle_nothing_left. apply Forall_map.
    eapply Forall_impl; [done |]. by intros l Hl.
  - pose proof (cycle_round ls []) as H. rewrite app_nil_r in H.
    rewrite H; simpl.
    + f_equal. apply IH. apply Forall_map. eapply Forall_impl; [done |].
      intros [|x l]; simpl; [done | lia].
    + eapply Forall_impl; [done |]. by intros [|x l].
Qed.

(** Over files of one length, with a slot for each file and blocks of one
    item, the interleaved stream is the round robin of the files. *)
Lemma cycle_equal_lengths (m : nat) (fs : list F) :
  Forall (fun f => length (map_func f) = m) fs ->
  data.cycle map_func 1 (replicate (length fs) None) 0 fs
  = rounds m (map map_func fs).
Proof.
  intros Hfs. destruct m as [|m].
  - simpl. apply length_zero_iff_nil. rewrite cycle_length.
    + induction Hfs as [|f fs Hf _ IH]; [done |]. simpl in *. lia.
    + by destruct fs.
  - pose proof (cycle_open fs []) as H. rewrite app_nil_r in H.
    rewrite H; simpl.
    + f_equal. apply cycle_rounds.
      apply Forall_map, Forall_map. eapply Forall_impl; [done |].
      intros f. simpl. destruct (map_func f); simpl; [done | lia].
    + eapply Forall_impl; [done |]. intros f. simpl. by destruct (map_func f).
Qed.

End InterleaveFacts.

Lemma heads_sources {Y : Type} (m : nat) (ls : list (list (sourced Y)))
    (names : list string) :
  Forall2 (fun l f => l.*1 = replicate (S m) f) ls names ->
  (omap head ls).*1 = names.
Proof.
  induction 1 as [|l f ls names Hl _ IH]; [done |].
  destruct l as [|[f' y] l]; [done |]. simpl in *.
  injection Hl as -> _. by f_equal.
Qed.

Lemma tails_sources {Y : Type} (m : nat) (ls : list (list (sourced Y)))
    (names : list string) :
  Forall2 (fun l f => l.*1 = replicate (S m) f) ls names ->
  Forall2 (fun l f => l.*1 = replicate m f) (map tail ls) names.
Proof.
  induction 1 as [|l f ls names Hl _ IH]; [constructor |].
  simpl. constructor; [|done].
  destruct l as [|[f' y] l]; [done |]. simpl in *. by injection Hl as _ Hl.
Qed.

(** The files behind a round robin of tagged files: the file names, over
    and over. *)
Lemma rounds_sources {Y : Type} (m : nat) (ls : list (list (sourced Y)))
    (names : list string) :
  Forall2 (fun l f => l.*1 = replicate m f) ls names ->
  (rounds m ls).*1 = concat (replicate m names).
Proof.
  revert ls. induction m as [|m IH]; intros ls H; [done |].
  simpl. rewrite fmap_app. f_equal.
  - by eapply heads_sources.
  - by apply IH, tails_sources.
Qed.

Lemma lookup_concat_replicate {A : Type} (m : nat) (l : list A) (p : nat) :
  (p < m * length l)%nat ->
  concat (replicate m l) !! p = l !! (p mod length l)%nat.
Proof.
  revert p. induction m as [|m IH]; intros p Hp; [lia |].
  simpl. destruct (decide (p < length l)%nat) as [Hlt | Hge].
  - rewrite lookup_app_l by done. by rewrite Nat.mod_small.
  - rewrite lookup_app_r by lia. rewrite IH by lia. f_equal.
    replace p with ((p - length l) + 1 * length l)%nat at 2 by lia.
    by rewrite Nat.Div0.mod_add.
Qed.

Lemma mod_window (n s i j : nat) :
  (i < n)%nat -> (j < n)%nat -> ((s + i) mod n = (s + j) mod n)%nat -> i = j.
Proof.
  intros Hi Hj Hmod.
  pose proof (Nat.div_mod_eq (s + i) n) as Ei.
  pose proof (Nat.div_mod_eq (s + j) n) as Ej.
  rewrite Hmod in Ei.
  destruct (Nat.lt_trichotomy ((s + i) / n) ((s + j) / n)) as [H | [H | H]].
  - assert (n * ((s + i) / n) + n <= n * ((s + j) / n))%nat by nia. lia.
  - rewrite H in Ei. lia.
  - assert (n * ((s + j) / n) + n <= n * ((s + i) / n))%nat by nia. lia.
Qed.

(** In the repetition of a duplicate-free list, any stretch as long as the
    list is duplicate-free. *)
Lemma window_NoDup {A : Type} (m s : nat) (l : list A) :
  NoDup l -> (s + length l <= m * length l)%nat ->
  NoDup (take (length l) (drop s (concat (replicate m l)))).
Proof.
  intros Hl Hs. apply NoDup_alt. intros i j x Hi Hj.
  apply lookup_take_Some in Hi as [Hi Hi'], Hj as [Hj Hj'].
  rewrite lookup_drop, lookup_concat_replicate in Hi, Hj by lia.
  pose proof (proj1 (NoDup_alt l) Hl _ _ _ Hi Hj) as Hmod.
  by eapply mod_window.
Qed.


Lemma length_concat_replicate {A : Type} (m : nat) (l : list A) :
  length (concat (replicate m l)) = (m * length l)%nat.
Proof. induction m as [|m IH]; [done |]. simpl. rewrite length_app. lia. Qed.

Lemma elem_of_concat_replicate {A : Type} (m : nat) (l : list A) (x : A) :
  x ∈ concat (replicate m l) -> x ∈ l.
Proof.
  induction m as [|m IH]; simpl; [by intros ?%elem_of_nil |].
  intros [? | ?]%elem_of_app; auto.
Qed.

Lemma window_Permutation {A : Type} (m s : nat) (l : list A) :
  NoDup l -> (s + length l <= m * length l)%nat ->
  take (length l) (drop s (concat (replicate m l))) ≡ₚ l.
Proof.
  intros Hl Hs. apply submseteq_length_Permutation.
  - apply NoDup_submseteq; [by apply window_NoDup |].
    intros x Hx%subseteq_take%subseteq_drop.
    by eapply elem_of_concat_replicate.
  - rewrite length_take, length_drop, length_concat_replicate. lia.
Qed.

Lemma map_fmap {A B : Type} (f : A -> B) (l : list A) : map f l = f <$> l.
Proof. reflexivity. Qed.

Lemma concat_singletons {A B : Type} (f : A -> B) (l : list A) :
  concat (map (fun a => [f a]) l) = f <$> l.
Proof. induction l as [|a l IH]; [done |]. simpl. by f_equal. Qed.

(** ** The input pipe *)

Section InputPipeFacts.

Variable serialized : Type.
Variable parse_single_example : serialized -> res example.
Variable PIPE_EXTRA_DATA_NAMES : list string.
Variable mapping_t : Type.
Variable mapping_eqb : mapping_t -> mapping_t -> bool.
Variables INTERLEAVE FLAT_MAP : mapping_t.
Variable read_records : string -> option string -> list serialized.
Variable cpu_count : nat.
Variable now : Z.
Variable file_order : nat -> list string -> list string.
Hypothesis file_order_perm : forall e l, Permutation (file_order e l) l.
Variable batch_shuffle :
  nat -> Z -> (nat -> res (list pulled)) -> nat -> res (list pulled).

Local Abbreviation pipe :=
  (setup_input_pipe serialized parse_single_example PIPE_EXTRA_DATA_NAMES
     mapping_t mapping_eqb INTERLEAVE FLAT_MAP read_records cpu_count now
     file_order batch_shuffle).

Local Abbreviation file_dataset :=
  (_new_tfrecord_dataset serialized parse_single_example
     PIPE_EXTRA_DATA_NAMES read_records).

(** C6: a [mapping_type] that is neither [INTERLEAVE] nor [FLAT_MAP] makes
    [setup_input_pipe] raise [ValueError].  No iterator is returned, so no
    record is read, whatever the files hold; there is no default
    strategy. *)
Theorem setup_input_pipe_unknown_mapping_type (files_n : nat)
    (name : string) (in_type : hits_kind) (out_class_bins : list Q)
    (compression_type : option string) (batch_size : option nat)
    (shuffle : bool) (reps : Z) (mapping_type : mapping_t) :
  mapping_eqb mapping_type INTERLEAVE = false ->
  mapping_eqb mapping_type FLAT_MAP = false ->
  pipe files_n name in_type out_class_bins compression_type batch_size
       shuffle reps mapping_type
  = Raise (ValueError
             "mapping_type param in not one of PIPE_MAPPING_TYPE constants.").
Proof.
  intros Hinterleave Hflat_map. unfold setup_input_pipe.
  rewrite Hinterleave, Hflat_map. reflexivity.
Qed.

Lemma file_dataset_sources (filename : string) (compression : option string)
    (parallel_calls : nat) (in_type : hits_kind) (out_len : nat)
    (out_class_bins : list Q) :
  (file_dataset filename compression parallel_calls in_type out_len
                out_class_bins).*1
  = replicate (length (read_records filename compression)) filename.
Proof.
  unfold _new_tfrecord_dataset.
  induction (read_records filename compression) as [|x l IH]; [done |].
  simpl. by f_equal.
Qed.

Lemma delivered_sources (es : list (sourced (res event))) (l : list pulled) :
  mapM (fun e => One <$> deliver e) es = Ret l ->
  map sources l = map (fun e => [e.1]) es.
Proof.
  intros H%mapM_Ret. induction H as [|e p es l He _ IH]; [done |].
  simpl. rewrite IH. f_equal.
  apply fmap_Ret in He as (ev & (v & _ & [= <-])%bind_Ret & ->). done.
Qed.

(** C5, amended: under INTERLEAVE over [files_n] distinct files that hold
    the same number of records each, in a single pass over the data
    ([reps = 1]) and without batching, any [files_n] consecutive pulls draw
    exactly one event from each file. *)
Theorem interleave_window (files_n : nat) (name : string)
    (in_type : hits_kind) (out_class_bins : list Q)
    (compression_type : option string) (shuffle : bool)
    (mapping_type : mapping_t) (feed : list string) (m s : nat)
    (files_placeholder : placeholder) (it : iterator) (l : list pulled) :
  mapping_eqb mapping_type INTERLEAVE = true ->
  pipe files_n name in_type out_class_bins compression_type None shuffle 1
       mapping_type = Ret (files_placeholder, it) ->
  NoDup feed ->
  Forall (fun f => length (read_records f compression_type) = m) feed ->
  it feed (s + files_n)%nat = Ret l ->
  length l = (s + files_n)%nat ->
  NoDup (concat (map sources (drop s l)))
  /\ concat (map sources (drop s l)) ≡ₚ feed.
Proof.
  intros Hmt Hpipe Hfeed Hm Hit Hl.
  unfold setup_input_pipe in Hpipe. rewrite Hmt in Hpipe.
  injection Hpipe as _ <-.
  destruct (decide (length feed = files_n)) as [Hn|]; [|done].
  destruct (decide (files_n = 0%nat)) as [|Hn0]; [done |].
  apply bind_Ret in Hit as (es & Hes & Hit).
  unfold data.repeat, data.interleave in Hes. simpl in Hes.
  destruct (decide (files_n = 0%nat)); [done |].
  injection Hes as <-. rewrite app_nil_r in Hit.
  set (σ := file_order 0 feed) in *.
  assert (length σ = files_n) as Hσ by (by unfold σ; rewrite file_order_perm).
  assert (NoDup σ) as Hnodup by (by unfold σ; rewrite file_order_perm).
  rewrite <- Hσ in Hit at 2.
  rewrite (cycle_equal_lengths _ m) in Hit.
  2:{ apply Forall_forall. intros f Hf.
      unfold σ in Hf. rewrite file_order_perm in Hf.
      rewrite Forall_forall in Hm. rewrite <- (Hm f Hf).
      unfold _new_tfrecord_dataset. by rewrite length_map. }
  pose proof (mapM_Ret _ _ _ Hit) as Hlen%Forall2_length.
  apply delivered_sources in Hit.
  assert (Forall2 (fun l f => l.*1 = replicate m f)
            (map (fun f => file_dataset f compression_type cpu_count in_type
                             (length out_class_bins + 1)%nat out_class_bins) σ)
            σ) as Hsrc.
  { assert (Forall (fun f => length (read_records f compression_type) = m) σ)
      as H by (by unfold σ; rewrite file_order_perm).
    clear -H. induction H as [|f fs Hf _ IH]; constructor; [|done].
    by rewrite file_dataset_sources, Hf. }
  apply rounds_sources in Hsrc.
  set (ds := rounds m _) in *.
  rewrite <- skipn_map, Hit, skipn_map, concat_singletons.
  rewrite fmap_drop, fmap_take, Hsrc.
  rewrite length_take, Hl in Hlen.
  assert (s + length σ <= m * length σ)%nat as Hwin.
  { rewrite <- (length_concat_replicate m σ), <- Hsrc, length_fmap.
    apply Nat.min_l_iff in Hlen. by rewrite Hσ. }
  rewrite <- take_drop_commute, <- Hσ.
  split; [by apply window_NoDup |].
  rewrite window_Permutation by done. apply file_order_perm.
Qed.

End InputPipeFacts.

Lemma setup_input_pipe_unknown_mapping_type_witness :
  sample_pipe equal_files alternate 1 2
  = Raise (ValueError
             "mapping_type param in not one of PIPE_MAPPING_TYPE constants.").
Proof.
  apply setup_input_pipe_unknown_mapping_type; reflexivity.
Defined.

(** C5, as stated, does not hold.  With file A of three records and file B
    of one, the pulls are A, B, A, A: the third and fourth pull, a window
    of two, both draw from A.  And with two records in each file and two
    passes, the second with the files in the other order, the pulls are
    A, B, A, B, B, A, B, A: the fourth and fifth pull both draw from B. *)
Lemma interleave_window_repeats_a_file :
  (exists files_placeholder it,
     sample_pipe unequal_files (fun _ l => l) 1 0
       = Ret (files_placeholder, it)
     /\ window it ["A"; "B"] 0 4 = Ret ["A"; "B"; "A"; "A"]
     /\ window it ["A"; "B"] 2 2 = Ret ["A"; "A"])
  /\ (exists files_placeholder it,
        sample_pipe equal_files alternate 2 0 = Ret (files_placeholder, it)
        /\ window it ["A"; "B"] 0 8
           = Ret ["A"; "B"; "A"; "B"; "B"; "A"; "B"; "A"]
        /\ window it ["A"; "B"] 3 2 = Ret ["B"; "B"]).
Proof.
  split; do 2 eexists; (split; [reflexivity |]); split; by vm_compute.
Qed.

Lemma interleave_window_witness :
  exists files_placeholder it l,
    sample_pipe equal_files (fun _ l => l) 1 0 = Ret (files_placeholder, it)
    /\ it ["A"; "B"] (1 + 2)%nat = Ret l
    /\ NoDup (concat (map sources (drop 1 l)))
    /\ concat (map sources (drop 1 l)) ≡ₚ ["A"; "B"].
Proof.
  do 3 eexists. split; [reflexivity |]. split; [by vm_compute |].
  eapply (interleave_window example Ret [] nat Nat.eqb 0%nat 1%nat equal_files
            4%nat 0%Z (fun _ l => l) (fun _ _ => reflexivity _)
            (fun _ _ d => d) 2%nat "train" REDUCED [10%Q; 20%Q; 30%Q] None
            false 0%nat ["A"; "B"] 2%nat 1%nat).
  - reflexivity.
  - reflexivity.
  - compute_done.
  - repeat constructor.
  - by vm_compute.
  - reflexivity.
Defined.

(** ** The shared parameter dict *)

Lemma getitem_setitem (r : ref) (k : string) (v : pyval) (σ : store) :
  is_Some (σ !! r) -> getitem r k (setitem r k v σ) = Some v.
Proof.
  intros [d Hd]. unfold getitem, setitem.
  rewrite lookup_alter_eq, Hd. simpl. apply lookup_insert_eq.
Qed.

Lemma getitem_setitem_ne (r : ref) (k k' : string) (v : pyval) (σ : store) :
  k <> k' -> getitem r k' (setitem r k v σ) = getitem r k' σ.
Proof.
  intros Hk. unfold getitem, setitem. rewrite lookup_alter_eq.
  destruct (σ !! r) as [d|]; simpl; [|done]. by apply lookup_insert_ne.
Qed.

Lemma setitem_is_Some (r : ref) (k : string) (v : pyval) (σ : store) :
  is_Some (σ !! r) -> is_Some (setitem r k v σ !! r).
Proof. intros [d Hd]. unfold setitem. rewrite lookup_alter_eq, Hd. by eexists. Qed.

Lemma getitem_is_Some (r : ref) (k : string) (σ : store) :
  is_Some (getitem r k σ) -> is_Some (σ !! r).
Proof. unfold getitem. destruct (σ !! r); [by eexists | by intros [? ?]]. Qed.

Lemma override_is_Some (r : ref) (kw : list (string * pyval)) (σ : store) :
  is_Some (σ !! r) -> is_Some (OMTFRunner.override r kw σ !! r).
Proof.
  revert σ. induction kw as [|[k v] kw IH]; intros σ Hσ; [done |].
  simpl. apply IH. destruct (contains r k σ); [by apply setitem_is_Some | done].
Qed.

Lemma update_is_Some (r : ref) (var : list (string * pyval)) (σ : store) :
  is_Some (σ !! r) -> is_Some (OMTFRunner.update r var σ !! r).
Proof.
  revert σ. induction var as [|[k v] var IH]; intros σ Hσ; [done |].
  simpl. by apply IH, setitem_is_Some.
Qed.

(** A key that [kw] does not name keeps its value. *)
Lemma override_other (r : ref) (kw : list (string * pyval)) (k : string)
    (σ : store) :
  k ∉ kw.*1 -> getitem r k (OMTFRunner.override r kw σ) = getitem r k σ.
Proof.
  revert σ. induction kw as [|[k' v'] kw IH]; intros σ Hk; [done |].
  apply not_elem_of_cons in Hk as [Hk Hkw]. simpl. rewrite IH by done.
  destruct (contains r k' σ); [by apply getitem_setitem_ne | done].
Qed.

Lemma update_other (r : ref) (var : list (string * pyval)) (k : string)
    (σ : store) :
  k ∉ var.*1 -> getitem r k (OMTFRunner.update r var σ) = getitem r k σ.
Proof.
  revert σ. induction var as [|[k' v'] var IH]; intros σ Hk; [done |].
  apply not_elem_of_cons in Hk as [Hk Hvar]. simpl. rewrite IH by done.
  by apply getitem_setitem_ne.
Qed.

(** A key of the dict that [kw] names gets the value [kw] gives it. *)
Lemma override_named (r : ref) (kw : list (string * pyval)) (k : string)
    (v : pyval) (σ : store) :
  NoDup kw.*1 -> (k, v) ∈ kw -> is_Some (getitem r k σ) ->
  getitem r k (OMTFRunner.override r kw σ) = Some v.
Proof.
  revert σ. induction kw as [|[k' v'] kw IH]; intros σ Hnd Hkv Hk.
  { by apply elem_of_nil in Hkv. }
  apply NoDup_cons in Hnd as [Hk' Hnd]. simpl in *.
  apply elem_of_cons in Hkv as [[= <- <-] | Hkv].
  - rewrite override_other by done.
    unfold contains. rewrite bool_decide_eq_true_2 by done.
    apply getitem_setitem. by eapply getitem_is_Some.
  - apply IH; [done | done |].
    destruct (contains r k' σ); [|done].
    destruct (decide (k' = k)) as [-> | Hne].
    + rewrite getitem_setitem; [by eexists | by eapply getitem_is_Some].
    + by rewrite getitem_setitem_ne.
Qed.

Lemma override_keeps_key (r : ref) (kw : list (string * pyval)) (k : string)
    (σ : store) :
  is_Some (getitem r k σ) ->
  is_Some (getitem r k (OMTFRunner.override r kw σ)).
Proof.
  revert σ. induction kw as [|[k' v'] kw IH]; intros σ Hk; [done |].
  simpl. apply IH. destruct (contains r k' σ); [|done].
  destruct (decide (k' = k)) as [-> | Hne].
  - rewrite getitem_setitem; [by eexists | by eapply getitem_is_Some].
  - by rewrite getitem_setitem_ne.
Qed.

Section InitFacts.

Variable OMTFDataset : Type.
Variable py_format : pyval -> string.

Local Abbreviation init := (OMTFRunner.__init__ OMTFDataset py_format).
Local Abbreviation param := (OMTFRunner.param OMTFDataset).

(** The construction returns as long as the class dict is there with its
    [sess_prefix] entry; it hands out the class dict itself. *)
Lemma init_returns (dataset : OMTFDataset) (network : OMTFNN)
    (kw : list (string * pyval)) (timestamp : string) (σ : store) :
  is_Some (getitem OMTFRunner.DEFAULT_PARAMS_ref "sess_prefix" σ) ->
  exists (s : OMTFRunner.self OMTFDataset) (σ' : store),
    init dataset network kw timestamp σ = Ret (s, σ')
    /\ OMTFRunner.params s = OMTFRunner.DEFAULT_PARAMS_ref
    /\ is_Some (getitem OMTFRunner.DEFAULT_PARAMS_ref "sess_prefix" σ')
    /\ getitem OMTFRunner.DEFAULT_PARAMS_ref "timestamp" σ'
       = Some (VStr timestamp)
    /\ forall k, k ∉ OMTFRunner.session_variables ->
         getitem OMTFRunner.DEFAULT_PARAMS_ref k σ'
         = getitem OMTFRunner.DEFAULT_PARAMS_ref k
             (OMTFRunner.override OMTFRunner.DEFAULT_PARAMS_ref kw σ).
Proof.
  intros Hpref. unfold OMTFRunner.__init__.
  pose proof (override_keeps_key _ kw _ _ Hpref) as [pref Hpref'].
  rewrite Hpref'. do 2 eexists. split; [done |].
  assert (is_Some (OMTFRunner.override OMTFRunner.DEFAULT_PARAMS_ref kw σ
                   !! OMTFRunner.DEFAULT_PARAMS_ref)) as Hσ.
  { eapply getitem_is_Some. by rewrite Hpref'. }
  split_and!.
  - done.
  - rewrite update_other; [by eexists |]. compute_done.
  - cbn [OMTFRunner.update foldl fst snd].
    rewrite !getitem_setitem_ne by done.
    apply getitem_setitem. done.
  - intros k Hk. by rewrite update_other.
Qed.

(** C9: the runner's parameters are the class dict [DEFAULT_PARAMS]
    itself.  Of two constructions in a row, the first writes its keyword
    overrides and its session variables into the class dict, and the second
    instance reads the first one's overrides there, unless it overrides the
    key again, where a fresh copy would give the defaults; both instances
    hold the same dict, so the first also sees the second one's session. *)
Theorem default_params_shared (dataset1 dataset2 : OMTFDataset)
    (network1 network2 : OMTFNN) (kw1 kw2 : list (string * pyval))
    (timestamp1 timestamp2 : string) (σ0 : store) :
  is_Some (getitem OMTFRunner.DEFAULT_PARAMS_ref "sess_prefix" σ0) ->
  exists (s1 s2 : OMTFRunner.self OMTFDataset) (σ1 σ2 : store),
    init dataset1 network1 kw1 timestamp1 σ0 = Ret (s1, σ1)
    /\ init dataset2 network2 kw2 timestamp2 σ1 = Ret (s2, σ2)
    /\ OMTFRunner.params s1 = OMTFRunner.DEFAULT_PARAMS_ref
    /\ OMTFRunner.params s2 = OMTFRunner.DEFAULT_PARAMS_ref
    /\ getitem OMTFRunner.DEFAULT_PARAMS_ref "timestamp" σ1
       = Some (VStr timestamp1)
    /\ (forall (k : string) (v : pyval),
          NoDup kw1.*1 -> (k, v) ∈ kw1 ->
          is_Some (getitem OMTFRunner.DEFAULT_PARAMS_ref k σ0) ->
          k ∉ OMTFRunner.session_variables ->
          getitem OMTFRunner.DEFAULT_PARAMS_ref k σ1 = Some v
          /\ (k ∉ kw2.*1 -> param s2 k σ2 = Some v))
    /\ param s1 "timestamp" σ2 = Some (VStr timestamp2).
Proof.
  intros Hpref.
  destruct (init_returns dataset1 network1 kw1 timestamp1 σ0 Hpref)
    as (s1 & σ1 & Hinit1 & Hs1 & Hpref1 & Hts1 & Hkeep1).
  destruct (init_returns dataset2 network2 kw2 timestamp2 σ1 Hpref1)
    as (s2 & σ2 & Hinit2 & Hs2 & _ & Hts2 & Hkeep2).
  exists s1, s2, σ1, σ2. split_and!; try done.
  - intros k v Hnd Hkv Hk Hsession.
    assert (getitem OMTFRunner.DEFAULT_PARAMS_ref k σ1 = Some v) as Hk1.
    { rewrite Hkeep1 by done. by apply override_named. }
    split; [done |]. intros Hkw2. unfold OMTFRunner.param.
    by rewrite Hs2, Hkeep2, override_other.
  - unfold OMTFRunner.param. by rewrite Hs1.
Qed.

End InitFacts.

Lemma default_params_shared_witness :
  let network := {| nn_name := "net"; pt_class := [10%Q; 20%Q; 30%Q];
                    in_type := REDUCED |} in
  exists (s1 s2 : OMTFRunner.self unit) (σ1 σ2 : store),
    OMTFRunner.__init__ unit sample_format () network
      [("batch_size", VInt 5)] "2018-01-01-00-00-00" OMTFRunner.class_store
      = Ret (s1, σ1)
    /\ OMTFRunner.__init__ unit sample_format () network
         [] "2018-01-02-00-00-00" σ1 = Ret (s2, σ2)
    /\ OMTFRunner.param unit s2 "batch_size" σ2 = Some (VInt 5)
    /\ OMTFRunner.DEFAULT_PARAMS !! "batch_size" = Some (VInt 1000)
    /\ OMTFRunner.param unit s1 "timestamp" σ2
       = Some (VStr "2018-01-02-00-00-00").
Proof.
  intros network.
  destruct (default_params_shared unit sample_format () () network network
              [("batch_size", VInt 5)] [] "2018-01-01-00-00-00"
              "2018-01-02-00-00-00" OMTFRunner.class_store)
    as (s1 & s2 & σ1 & σ2 & H1 & H2 & _ & _ & _ & Hkw & Hts).
  { exists (VStr ""). reflexivity. }
  exists s1, s2, σ1, σ2. split_and!; [done | done | | reflexivity | done].
  destruct (Hkw "batch_size" (VInt 5)) as [_ H].
  - apply NoDup_singleton.
  - apply list_elem_of_singleton. reflexivity.
  - exists (VInt 1000). reflexivity.
  - clear. compute_done.
  - apply H. apply not_elem_of_nil.
Defined.


(** ** test *)

Lemma load_global_setup_accuracy :
  OMTFRunner.load_global "setup_accuracy" = Raise (NameError "setup_accuracy").
Proof. reflexivity. Qed.

Section TestFacts.

Variable OMTFDataset : Type.

(** C8 fails on the code: [test] never returns its summary.  The name
    [setup_accuracy] is bound neither in [test] nor at the top level of
    [runner.py] nor among the builtins, so a call that gets as far as
    line 427 raises [NameError]; a call that does not get there has raised
    before. *)
Theorem test_never_returns (s : OMTFRunner.self OMTFDataset)
    (kw : list (string * pyval)) (env : OMTFRunner.test_env) (σ : store) :
  (forall r : OMTFRunner.summary,
     (OMTFRunner.test OMTFDataset s kw env σ).1 <> Ret r)
  /\ (forall (name h0 h1 h2 h3 : string),
        OMTFRunner.param OMTFDataset s "sess_name"
          (OMTFRunner._update_params OMTFDataset s kw σ) = Some (VStr name) ->
        OMTFRunner.make_pipe env = Ret () ->
        OMTFRunner.restore env = Ret [h0; h1; h2; h3] ->
        (OMTFRunner.test OMTFDataset s kw env σ).1
        = Raise (NameError "setup_accuracy")).
Proof.
  unfold OMTFRunner.test. simpl. split.
  - intros r.
    destruct (OMTFRunner.param _ _ _ _) as [[| | | |name| |]|]; try done.
    destruct (OMTFRunner.make_pipe env); [|done]. simpl.
    destruct (OMTFRunner.restore env) as [[|? [|? [|? [|? [|? ?]]]]]|]; done.
  - intros name h0 h1 h2 h3 -> -> ->. reflexivity.
Qed.

End TestFacts.

(** A runner built with the defaults, tested on a model whose [restore]
    returns four handles. *)
Lemma test_never_returns_witness :
  exists (s : OMTFRunner.self unit) (σ : store),
    OMTFRunner.__init__ unit sample_format () sample_network []
      "2018-01-01-00-00-00" OMTFRunner.class_store = Ret (s, σ)
    /\ (OMTFRunner.test unit s [] sample_test_env σ).1
       = Raise (NameError "setup_accuracy").
Proof.
  do 2 eexists. split; [reflexivity |].
  eapply (proj2 (test_never_returns unit _ [] sample_test_env _));
    reflexivity.
Defined.

(** ** train *)

Section TrainFacts.

Variable env : OMTFRunner.train_env.
Variable opt : OMTFRunner.options.

Local Abbreviation body := (OMTFRunner.body env opt).
Local Abbreviation loop := (OMTFRunner.loop env opt).

Lemma in_budget_test (i : Z) :
  (i <=? OMTFRunner.steps opt)%Z || (OMTFRunner.steps opt <? 0)%Z = true
  <-> in_budget opt i.
Proof. unfold in_budget. rewrite orb_true_iff, Z.leb_le, Z.ltb_lt. done. Qed.

(** The two [break]s of the body. *)
Lemma body_break (i : Z) (why : OMTFRunner.stop) :
  body i = Ret (Some why) <->
  (why = OMTFRunner.StreamExhausted /\ OMTFRunner.fetch env i = Ret false)
  \/ (why = OMTFRunner.DebuggerQuit
      /\ OMTFRunner.debug opt = true
      /\ OMTFRunner.fetch env i = Ret true
      /\ OMTFRunner.run_step env i = Ret ()
      /\ OMTFRunner.show_dbg env i = Ret true).
Proof.
  unfold OMTFRunner.body. split.
  - destruct (OMTFRunner.fetch env i) as [[|]|]; simpl; [| |done].
    2:{ intros [= <-]. by left. }
    destruct (OMTFRunner.run_step env i) as [[]|]; simpl; [|done].
    destruct (OMTFRunner.debug opt); simpl.
    + destruct (OMTFRunner.show_dbg env i) as [[|]|]; simpl; [| |done].
      { intros [= <-]. right. done. }
      destruct (_ =? _)%Z; [done |].
      destruct (_ =? _)%Z; [destruct (OMTFRunner.validate env i) |];
        simpl; try done; by destruct (OMTFRunner._next_tick env i).
    + destruct (_ =? _)%Z; [done |].
      destruct (_ =? _)%Z; [destruct (OMTFRunner.validate env i) |];
        simpl; try done; by destruct (OMTFRunner._next_tick env i).
  - intros [[-> ->] | (-> & -> & -> & -> & ->)]; done.
Qed.

(** What the body does at a step within the budget where the loop stops. *)
Lemma stops_in_budget (i : Z) (why : OMTFRunner.stop) :
  in_budget opt i -> stops_at env opt why i ->
  match why with
  | OMTFRunner.BudgetReached => False
  | OMTFRunner.Interrupted => body i = Raise KeyboardInterrupt
  | _ => body i = Ret (Some why)
  end.
Proof.
  intros Hi Hstop. destruct why; simpl in Hstop.
  - unfold in_budget in Hi. lia.
  - apply body_break. left. by destruct Hstop.
  - apply body_break. right. by destruct Hstop.
  - by destruct Hstop.
Qed.

(** The loop stops at step [i] for the reason [why] exactly when every
    step before [i] ran to its end within the budget and [i] is where
    [why] happens. *)
Lemma loop_Stopped (fuel : nat) (i0 i : Z) (why : OMTFRunner.stop) :
  loop fuel i0 = Some (OMTFRunner.Stopped why i) <->
  (i0 <= i < i0 + Z.of_nat fuel)%Z
  /\ (forall j, (i0 <= j < i)%Z -> in_budget opt j /\ body j = Ret None)
  /\ stops_at env opt why i.
Proof.
  revert i0. induction fuel as [|fuel IH]; intros i0.
  { simpl. split; [done | lia]. }
  cbn [OMTFRunner.loop].
  destruct ((i0 <=? _)%Z || _) eqn:Hcond.
  - apply in_budget_test in Hcond.
    destruct (body i0) as [[why'|]|e] eqn:Hbody.
    + (* break *)
      split.
      * intros [= <- <-]. split; [lia |]. split; [lia |].
        apply body_break in Hbody as [[-> ?] | (-> & ?)]; simpl; auto.
      * intros (Hi & Hbefore & Hstop).
        destruct (decide (i = i0)) as [-> | Hne].
        -- pose proof (stops_in_budget _ _ Hcond Hstop).
           destruct why; try done; congruence.
        -- destruct (Hbefore i0) as [_ H]; [lia | congruence].
    + (* the body runs to its end *)
      rewrite IH. split.
      * intros (Hi & Hbefore & Hstop). split; [lia |]. split; [|done].
        intros j Hj. destruct (decide (j = i0)) as [-> |]; [done |].
        apply Hbefore. lia.
      * intros (Hi & Hbefore & Hstop).
        assert (i <> i0) as Hne.
        { intros ->. pose proof (stops_in_budget _ _ Hcond Hstop).
          destruct why; try done; congruence. }
        split; [lia |]. split; [|done]. intros j Hj. apply Hbefore. lia.
    + (* an exception *)
      split.
      * destruct e; try done. intros [= <- <-].
        split; [lia |]. split; [lia |]. done.
      * intros (Hi & Hbefore & Hstop).
        destruct (decide (i = i0)) as [-> | Hne].
        -- pose proof (stops_in_budget _ _ Hcond Hstop) as H.
           destruct why; try done; try congruence.
           rewrite Hbody in H. by injection H as ->.
        -- destruct (Hbefore i0) as [_ H]; [lia | congruence].
  - (* the budget is used up *)
    apply not_true_iff_false in Hcond. rewrite in_budget_test in Hcond.
    split.
    + intros [= <- <-]. split; [lia |]. split; [lia |].
      simpl. unfold in_budget in Hcond. lia.
    + intros (Hi & Hbefore & Hstop).
      destruct (decide (i = i0)) as [-> | Hne].
      * destruct why; simpl in Hstop; [done | by destruct Hstop ..].
      * destruct (Hbefore i0) as [H _]; [lia | done].
Qed.

(** A budget bounds the number of passes. *)
Lemma loop_budget (fuel : nat) (i0 : Z) :
  (0 <= OMTFRunner.steps opt)%Z -> (0 < fuel)%nat ->
  (OMTFRunner.steps opt - i0 + 1 < Z.of_nat fuel)%Z ->
  is_Some (loop fuel i0).
Proof.
  intros Hsteps. revert i0.
  induction fuel as [|fuel IH]; intros i0 Hpos Hfuel.
  { lia. }
  cbn [OMTFRunner.loop].
  destruct ((i0 <=? _)%Z || _) eqn:Hcond; [|by eexists].
  apply in_budget_test in Hcond. unfold in_budget in Hcond.
  destruct (body i0) as [[why|]|e]; [by eexists | | destruct e; by eexists].
  apply IH; lia.
Qed.

(** Without a budget, the loop goes on as long as the body runs to its
    end. *)
Lemma loop_unbounded (fuel : nat) (i0 : Z) :
  (OMTFRunner.steps opt < 0)%Z ->
  (forall j, (i0 <= j)%Z -> body j = Ret None) ->
  loop fuel i0 = None.
Proof.
  intros Hsteps. revert i0. induction fuel as [|fuel IH]; intros i0 Hbody.
  { done. }
  cbn [OMTFRunner.loop].
  replace ((i0 <=? _)%Z || _) with true
    by (symmetry; apply in_budget_test; by right).
  rewrite Hbody by lia. apply IH. intros j Hj. apply Hbody. lia.
Qed.

(** The files [_log_init] opens are the handles of [self.log_hnd]. *)
Lemma _log_init_opened (log : string) (ph : phase) :
  (OMTFRunner._log_init log ph).1
  = map OMTFRunner.OpenLog (omap snd (OMTFRunner.log_hnd_init log ph)).
Proof.
  unfold OMTFRunner._log_init. case_bool_decide; [|done].
  by destruct (OMTFRunner.tf_local log ph).
Qed.

(** [_log_init] returns exactly when no summary writer is asked for. *)
Lemma _log_init_returns (log : string) (ph : phase) :
  (OMTFRunner._log_init log ph).2 = Ret () <-> log ∉ ["tb"; "both"].
Proof.
  unfold OMTFRunner._log_init. case_bool_decide as Hlog.
  - split; [|done]. by destruct (OMTFRunner.tf_local log ph).
  - done.
Qed.

Lemma log_handles_closed (f : string) :
  OMTFRunner.OpenLog f ∈ (OMTFRunner._log_init (OMTFRunner.log opt) TRAIN).1 ->
  OMTFRunner.CloseLog f
  ∈ OMTFRunner._log_deinit
      (OMTFRunner.log_hnd_init (OMTFRunner.log opt) TRAIN).
Proof.
  rewrite _log_init_opened. unfold OMTFRunner._log_deinit.
  intros (f' & [= <-] & Hf)%list_elem_of_fmap.
  apply list_elem_of_fmap. eauto.
Qed.

(** [train] once the directory is made and [_log_init] has returned. *)
Lemma train_initialized (fuel : nat) :
  OMTFRunner.makedirs env = Ret () ->
  OMTFRunner.log opt ∉ ["tb"; "both"] ->
  OMTFRunner.train env opt fuel
  = let opened := (OMTFRunner._log_init (OMTFRunner.log opt) TRAIN).1 in
    let log_hnd := OMTFRunner.log_hnd_init (OMTFRunner.log opt) TRAIN in
    match OMTFRunner.setup env with
    | Raise e => Some (opened, Raise e)
    | Ret _ =>
        match loop fuel 1 with
        | None => None
        | Some (OMTFRunner.Escaped e _) => Some (opened, Raise e)
        | Some (OMTFRunner.Stopped _ _) =>
            match OMTFRunner.finish env with
            | Raise e => Some (opened, Raise e)
            | Ret _ =>
                match OMTFRunner.save env with
                | Raise e => Some (opened ++ [OMTFRunner.Finish], Raise e)
                | Ret _ =>
                    Some (opened ++ [OMTFRunner.Finish; OMTFRunner.Save]
                          ++ OMTFRunner._log_deinit log_hnd,
                          Ret ())
                end
            end
        end
    end.
Proof.
  intros Hmakedirs Hlog. apply (_log_init_returns _ TRAIN) in Hlog.
  unfold OMTFRunner.train.
  rewrite Hmakedirs.
  destruct (OMTFRunner._log_init _ _) as [opened initialized].
  simpl in Hlog. by subst initialized.
Qed.

(** C7, amended: in a session that gets as far as the loop (the log mode
    asks for no summary writer, so that [_log_init] returns, and the set-up
    succeeds), [train] returns exactly when the loop stops, and the loop
    stops at the first step where the step budget is used up, or the
    training stream is exhausted, or a keyboard interrupt is raised inside
    the loop, or, with [debug] set, the operator leaves the debugger.  On
    each of these paths the model is finished, then saved, and then every
    log handle that was opened is closed.  With a budget the loop ends
    within [steps] passes; without one ([steps < 0]) it goes on for as
    long as the body runs to its end.  An exception other than
    [KeyboardInterrupt] leaves [train] without these steps. *)
Theorem train_stops_and_persists :
  OMTFRunner.makedirs env = Ret () -> OMTFRunner.setup env = Ret () ->
  OMTFRunner.finish env = Ret () -> OMTFRunner.save env = Ret () ->
  OMTFRunner.log opt ∉ ["tb"; "both"] ->
  let opened := (OMTFRunner._log_init (OMTFRunner.log opt) TRAIN).1 in
  let closed := OMTFRunner._log_deinit
                  (OMTFRunner.log_hnd_init (OMTFRunner.log opt) TRAIN) in
  (forall (fuel : nat) (effects : list OMTFRunner.effect),
     OMTFRunner.train env opt fuel = Some (effects, Ret ()) <->
     effects = opened ++ [OMTFRunner.Finish; OMTFRunner.Save] ++ closed
     /\ exists (why : OMTFRunner.stop) (i : Z),
          (1 <= i < 1 + Z.of_nat fuel)%Z
          /\ (forall j, (1 <= j < i)%Z ->
                in_budget opt j /\ body j = Ret None)
          /\ stops_at env opt why i)
  /\ (forall f, OMTFRunner.OpenLog f ∈ opened -> OMTFRunner.CloseLog f ∈ closed)
  /\ ((0 <= OMTFRunner.steps opt)%Z ->
      is_Some (OMTFRunner.train env opt (Z.to_nat (OMTFRunner.steps opt) + 1)))
  /\ ((OMTFRunner.steps opt < 0)%Z ->
      (forall j, (1 <= j)%Z -> body j = Ret None) ->
      forall fuel, OMTFRunner.train env opt fuel = None)
  /\ (forall (fuel : nat) (e : exn) (i : Z),
        loop fuel 1 = Some (OMTFRunner.Escaped e i) ->
        OMTFRunner.train env opt fuel = Some (opened, Raise e)).
Proof.
  intros Hmakedirs Hsetup Hfinish Hsave Hlog opened closed.
  assert (forall fuel,
            OMTFRunner.train env opt fuel
            = match loop fuel 1 with
              | None => None
              | Some (OMTFRunner.Escaped e _) => Some (opened, Raise e)
              | Some (OMTFRunner.Stopped _ _) =>
                  Some (opened ++ [OMTFRunner.Finish; OMTFRunner.Save]
                        ++ closed, Ret ())
              end) as Htrain.
  { intros fuel. rewrite train_initialized by done.
    by rewrite Hsetup, Hfinish, Hsave. }
  split_and!.
  - intros fuel effects. rewrite Htrain. split.
    + destruct (loop fuel 1) as [[why i | e i]|] eqn:Hloop; [| done ..].
      intros [= <-]. split; [done |]. exists why, i. by apply loop_Stopped.
    + intros [-> (why & i & Hstop)]. apply loop_Stopped in Hstop.
      by rewrite Hstop.
  - apply log_handles_closed.
  - intros Hsteps. rewrite Htrain.
    destruct (loop_budget (Z.to_nat (OMTFRunner.steps opt) + 1) 1 Hsteps)
      as [[why i | e i] ->]; [lia | lia | by eexists ..].
  - intros Hsteps Hbody fuel. by rewrite Htrain, loop_unbounded.
  - intros fuel e i Hloop. by rewrite Htrain, Hloop.
Qed.

End TrainFacts.

(** C7, as stated, does not hold: with [debug] set the loop also ends when
    the operator leaves the debugger.  Here there is no step budget, the
    stream has a batch at every step and nothing raises, and [train]
    returns after the first step. *)
Lemma train_stops_when_debugger_quits :
  let opt := {| OMTFRunner.steps := -1; OMTFRunner.acc_ival := 1000;
                OMTFRunner.debug := true; OMTFRunner.log := "none" |} in
  OMTFRunner.train sample_session opt 1
  = Some ([OMTFRunner.Finish; OMTFRunner.Save], Ret ())
  /\ OMTFRunner.loop sample_session opt 1 1
     = Some (OMTFRunner.Stopped OMTFRunner.DebuggerQuit 1)
  /\ (OMTFRunner.steps opt < 0)%Z
  /\ (forall i, OMTFRunner.fetch sample_session i = Ret true)
  /\ (forall i, OMTFRunner.body sample_session opt i
               = Ret (Some OMTFRunner.DebuggerQuit)).
Proof. by vm_compute. Qed.

Lemma train_stops_and_persists_witness :
  let opt := {| OMTFRunner.steps := 2; OMTFRunner.acc_ival := 1000;
                OMTFRunner.debug := false; OMTFRunner.log := "txt" |} in
  OMTFRunner.train sample_session opt 3
  = Some ([OMTFRunner.OpenLog "train.txt"; OMTFRunner.OpenLog "valid.txt";
           OMTFRunner.Finish; OMTFRunner.Save;
           OMTFRunner.CloseLog "train.txt"; OMTFRunner.CloseLog "valid.txt"],
          Ret ()).
Proof.
  intros opt.
  assert (OMTFRunner.log opt ∉ ["tb"; "both"]) as Hlog
    by (clear; compute_done).
  apply (proj1 (train_stops_and_persists sample_session opt
                  eq_refl eq_refl eq_refl eq_refl Hlog)).
  split; [reflexivity |]. exists OMTFRunner.BudgetReached, 3%Z.
  split; [lia |]. split; [|simpl; lia].
  intros j Hj. split; [left; simpl; lia |].
  assert (j = 1 \/ j = 2)%Z as [-> | ->] by lia; reflexivity.
Defined.

(** * Further properties *)

(** ** The bucketizers, continued *)

Lemma fle_flt_trans (v w : float) (e : Q) :
  fle v w = true -> flt w (Fin e) = true -> flt v (Fin e) = true.
Proof.
  destruct v, w; simpl; try done.
  rewrite Qle_bool_iff, !Qltb_lt. apply Qle_lt_trans.
Qed.

Lemma searchsorted_right_mono (E : list Q) (v w : float) :
  fle v w = true ->
  (np.searchsorted_right E v <= np.searchsorted_right E w)%nat.
Proof.
  intros Hvw. induction E as [|e E IH]; [done |].
  simpl. rewrite !np_less_number.
  destruct (flt v (Fin e)) eqn:Hv; [lia |].
  destruct (flt w (Fin e)) eqn:Hw; [|lia].
  by rewrite (fle_flt_trans v w e) in Hv.
Qed.

(** X1: over ascending edges the label pt bucketizer keeps the order of the
    values: a larger value never gets a smaller class index. *)
Theorem prod_bucket_fn_monotone (E : list Q) (v w : float) :
  ascending E = true -> fle v w = true ->
  exists kv kw : Z,
    prod_bucket_fn E v = Ret kv /\ prod_bucket_fn E w = Ret kw
    /\ (kv <= kw)%Z.
Proof.
  intros HE Hvw. unfold prod_bucket_fn. rewrite !digitize_ascending by done.
  do 2 eexists. split_and!; [done | done |].
  pose proof (searchsorted_right_mono E v w Hvw). lia.
Qed.

Lemma prod_bucket_fn_monotone_witness :
  exists kv kw : Z,
    prod_bucket_fn [10%Q; 20%Q; 30%Q] (Fin 12) = Ret kv
    /\ prod_bucket_fn [10%Q; 20%Q; 30%Q] PosInf = Ret kw
    /\ (kv <= kw)%Z.
Proof.
  apply (prod_bucket_fn_monotone [10%Q; 20%Q; 30%Q] (Fin 12) PosInf);
    reflexivity.
Defined.

(** X2: away from the failure region the two sign bucketizers agree: for
    every value that is not below [-1.5] the reference sign index is the
    label sign index. *)
Theorem sgn_bucket_fns_agree (x : float) :
  flt x (Fin (-1.5)) = false ->
  omtf_sgn_bucket_fn x = prod_sgn_bucket_fn x.
Proof.
  intros Hx.
  destruct (omtf_sgn_bucket_fn_cases x) as [[H _] | [(_ & H & ->) | [H ->]]].
  - congruence.
  - by destruct (prod_sgn_bucket_fn_cases x) as [[_ ->] | [? _]]; [|congruence].
  - by destruct (prod_sgn_bucket_fn_cases x) as [[? _] | [_ ->]]; [congruence |].
Qed.

Lemma sgn_bucket_fns_agree_witness :
  omtf_sgn_bucket_fn (Fin (-1)) = prod_sgn_bucket_fn (Fin (-1))
  /\ omtf_sgn_bucket_fn NaN = prod_sgn_bucket_fn NaN.
Proof.
  split; apply sgn_bucket_fns_agree; reflexivity.
Defined.

(** Edges that go up after a first edge below zero: with the edge [0] put
    in front they first go down and then up. *)
Lemma no_ascent_rising (e : Q) (E : list Q) :
  ascending (e :: E) = true -> Exists (fun e' => (e < e')%Q) E ->
  np.no_ascent e E = false.
Proof.
  revert e. induction E as [|x E IH]; intros e HE Hup.
  { by apply Exists_nil in Hup. }
  simpl. destruct (Qltb e x) eqn:Hex; [done |].
  apply Qltb_ge in Hex. apply andb_true_iff in HE as [Hle HE].
  apply Qle_bool_iff in Hle. apply IH; [done |].
  apply Exists_cons in Hup as [Hup | Hup].
  - exfalso. by apply (Qlt_not_le e x).
  - eapply Exists_impl; [done |]. intros e' He'. simpl in He'.
    by apply Qle_lt_trans with e.
Qed.

Lemma omtf_bins_not_monotonic (e : Q) (E : list Q) :
  ascending (e :: E) = true -> (e < 0)%Q ->
  Exists (fun e' => (e < e')%Q) E ->
  np.monotonicity (omtf_bins (e :: E)) = np.NotMonotonic.
Proof.
  intros HE He Hup. unfold omtf_bins, np.monotonicity.
  cbn [np.skip_repeated].
  replace (Qeq_bool e 0) with false.
  2:{ symmetry. apply not_true_iff_false. intros Heq%Qeq_bool_iff.
      rewrite Heq in He. by apply Qlt_irrefl in He. }
  replace (Qltb 0 e) with false
    by (symmetry; apply Qltb_ge; by apply Qlt_le_weak).
  by rewrite no_ascent_rising.
Qed.


Lemma bind_Ret_l {A B : Type} (a : A) (k : A -> res B) : Ret a ≫= k = k a.
Proof. reflexivity. Qed.


(** Tensors that hold a value are fetched as they are paired. *)
Lemma fetch_named_values (names : list string) (vs : list scalar)
    (rest : list (res scalar)) :
  (length names <= length vs)%nat ->
  fetch_named names (map Ret vs ++ rest) = Ret (zip names vs).
Proof.
  unfold fetch_named. revert vs.
  induction names as [|n names IH]; intros [|v vs] Hlen; simpl in *;
    [done | done | lia |].
  by rewrite IH by lia.
Qed.

(** A failing tensor that is paired with a name fails the fetch. *)
Lemma fetch_named_Raise (names : list string) (vs : list scalar) (e : exn)
    (rest : list (res scalar)) :
  (length vs < length names)%nat ->
  fetch_named names (map Ret vs ++ Raise e :: rest) = Raise e.
Proof.
  unfold fetch_named. revert vs.
  induction names as [|n names IH]; intros [|v vs] Hlen; simpl in *;
    [lia | lia | done |].
  by rewrite IH by lia.
Qed.


Section DeserializeMore.

Variable serialized : Type.
Variable parse_single_example : serialized -> res example.
Variable PIPE_EXTRA_DATA_NAMES : list string.

Local Abbreviation deserialize :=
  (_deserialize serialized parse_single_example PIPE_EXTRA_DATA_NAMES).

(** X3: ascending edges that start below zero and rise later cannot be
    used with the reference data: with the edge [0] put in front the
    reference bins are not monotonic, so the reference pt bucketizer raises
    [ValueError] on every value, although the label pt bucketizer accepts
    the edges.  A record that parses then fails with
    [InvalidArgumentError] when the reference pt bucket is among the extra
    data, that is with six names or more, and deserializes when it is
    not. *)
Theorem negative_rising_edges_rejected (e : Q) (E : list Q) :
  ascending (e :: E) = true -> (e < 0)%Q ->
  Exists (fun e' => (e < e')%Q) E ->
  (forall v,
     omtf_bucket_fn (e :: E) v
     = Raise (ValueError
                "bins must be monotonically increasing or decreasing"))
  /\ (forall v, exists k, prod_bucket_fn (e :: E) v = Ret k)
  /\ (forall x ex hits_type out_len,
        parse_single_example x = Ret ex ->
        ((6 <= length PIPE_EXTRA_DATA_NAMES)%nat ->
         deserialize x hits_type out_len (e :: E)
         = Raise (InvalidArgumentError
                    "bins must be monotonically increasing or decreasing"))
        /\ ((length PIPE_EXTRA_DATA_NAMES < 6)%nat ->
            exists ev, deserialize x hits_type out_len (e :: E) = Ret ev)).
Proof.
  intros HE He Hup.
  assert (forall v,
            omtf_bucket_fn (e :: E) v
            = Raise (ValueError
                       "bins must be monotonically increasing or decreasing"))
    as Homtf.
  { intros v. unfold omtf_bucket_fn, np.digitize.
    by rewrite omtf_bins_not_monotonic. }
  assert (forall v, exists k, prod_bucket_fn (e :: E) v = Ret k) as Hprod.
  { intros v. unfold prod_bucket_fn. rewrite digitize_ascending by done.
    eauto. }
  split_and!; [done | done |].
  intros x ex hits_type out_len Hex. unfold _deserialize.
  rewrite Hex, bind_Ret_l.
  destruct (Hprod (ex_prod_pt ex)) as [k ->].
  assert (exists s, prod_sgn_bucket_fn (ex_prod_sign ex) = Ret s) as [s ->].
  { destruct (prod_sgn_bucket_fn_cases (ex_prod_sign ex))
      as [[_ ->] | [_ ->]]; eauto. }
  rewrite Homtf. cbn [py_func]. rewrite !bind_Ret_l. cbv zeta.
  set (vs := [SFloat (ex_pt_code ex); SFloat (ex_prod_pt ex); SInt k;
              SInt s; SFloat (ex_omtf_pt ex)]).
  split; intros Hnames.
  - match goal with
    | |- fetch_named ?names ?vals ≫= _ = Raise ?err =>
        replace (fetch_named names vals)
          with (Raise err : res (list (string * scalar))); [done |]
    end.
    symmetry. apply (fetch_named_Raise _ vs _ [_]). simpl. lia.
  - match goal with
    | |- exists ev, fetch_named ?names ?vals ≫= _ = _ =>
        replace (fetch_named names vals)
          with (Ret (zip names vs) : res (list (string * scalar)));
        [by eexists |]
    end.
    symmetry. apply (fetch_named_values _ vs [_; _]). simpl. lia.
Qed.


End DeserializeMore.

Lemma negative_rising_edges_rejected_witness :
  _deserialize example Ret
    ["pt_code"; "pt"; "pt_k"; "sign_k"; "omtf_pt"; "omtf_pt_k"; "omtf_sign_k"]
    (sample_event 5) REDUCED 3 [(-5)%Q; 5%Q]
  = Raise (InvalidArgumentError
             "bins must be monotonically increasing or decreasing")
  /\ exists ev,
       _deserialize example Ret ["pt_code"; "pt"] (sample_event 5) REDUCED 3
         [(-5)%Q; 5%Q] = Ret ev.
Proof.
  assert (Exists (fun e' => (-5 < e')%Q) [5%Q]) as Hup
    by (apply Exists_cons_hd; reflexivity).
  split.
  - destruct (negative_rising_edges_rejected example Ret
                ["pt_code"; "pt"; "pt_k"; "sign_k"; "omtf_pt"; "omtf_pt_k";
                 "omtf_sign_k"]
                (-5)%Q [5%Q] eq_refl eq_refl Hup) as (_ & _ & H).
    apply (H (sample_event 5) (sample_event 5) REDUCED 3%nat eq_refl).
    simpl. lia.
  - destruct (negative_rising_edges_rejected example Ret ["pt_code"; "pt"]
                (-5)%Q [5%Q] eq_refl eq_refl Hup) as (_ & _ & H).
    apply (H (sample_event 5) (sample_event 5) REDUCED 3%nat eq_refl).
    simpl. lia.
Defined.


(** ** The tf.data transformations, continued *)

Section InterleaveMore.

Context {F X : Type} (map_func : F -> list X).

(** What is left in the slots of the cycle. *)
Local Abbreviation held ring :=
  (concat (map (from_option (fun it : list X => it) []) ring)).

(** Interleaving loses nothing and repeats nothing: the stream is a
    rearrangement of the items of the input elements. *)
Lemma cycle_Permutation (block_length : nat)
    (ring : list (option (list X))) (block_index : nat) (input : list F) :
  (ring = [] -> input = []) ->
  data.cycle map_func block_length ring block_index input
  ≡ₚ held ring ++ concat (map map_func input).
Proof.
  funelim (data.cycle map_func block_length ring block_index input);
    simp cycle; simpl; intros Hring.
  - by rewrite Hring.
  - rewrite H by (by destruct ring). rewrite map_app, concat_app. simpl.
    by rewrite app_nil_r.
  - destruct (decide (S block_index = block_length)).
    + rewrite H by (by destruct ring). rewrite map_app, concat_app. simpl.
      rewrite app_nil_r. rewrite (Permutation_app_comm (held ring) it).
      by rewrite <- app_assoc.
    + rewrite H0 by done. simpl. by rewrite <- app_assoc.
  - by rewrite H.
  - rewrite H by done. simpl. rewrite !app_assoc.
    by rewrite (Permutation_app_comm (held ring) (map_func f)).
Qed.

(** With one slot the elements are read one after the other. *)
Lemma cycle_one_slot_open (it : list X) (input : list F) :
  data.cycle map_func 1 [Some it] 0 input
  = it ++ data.cycle map_func 1 [None] 0 input.
Proof.
  induction it as [|x it IH]; simp cycle; [done |]. simpl. by rewrite IH.
Qed.

Lemma cycle_one_slot (input : list F) :
  data.cycle map_func 1 [None] 0 input = concat (map map_func input).
Proof.
  induction input as [|f input IH]; simp cycle; [done |].
  rewrite cycle_one_slot_open, IH. done.
Qed.

End InterleaveMore.

Lemma batch_prefix {X : Type} (batch_size k : nat) (l : list X) :
  concat (map (fun i => take batch_size (drop (i * batch_size) l)) (seq 0 k))
  = take (k * batch_size) l.
Proof.
  induction k as [|k IH]; [done |].
  rewrite seq_S, map_app, concat_app, IH. simpl. rewrite app_nil_r.
  rewrite take_take_drop. f_equal. lia.
Qed.

(** Batching neither drops nor reorders: the batches put end to end are
    the list. *)
Lemma batch_concat {X : Type} (batch_size : nat) (l : list X) :
  (0 < batch_size)%nat -> concat (data.batch batch_size l) = l.
Proof.
  intros Hb. unfold data.batch. rewrite batch_prefix. apply take_ge.
  pose proof (Nat.div_mod_eq (length l + batch_size - 1) batch_size).
  pose proof (Nat.mod_upper_bound (length l + batch_size - 1) batch_size).
  nia.
Qed.

Lemma batch_sizes {X : Type} (batch_size : nat) (l : list X) :
  (0 < batch_size)%nat ->
  Forall (fun b => 0 < length b <= batch_size)%nat (data.batch batch_size l).
Proof.
  intros Hb. unfold data.batch. apply Forall_map, Forall_forall.
  intros i Hi%elem_of_seq. simpl. rewrite length_take, length_drop.
  pose proof (Nat.div_mod_eq (length l + batch_size - 1) batch_size).
  pose proof (Nat.mod_upper_bound (length l + batch_size - 1) batch_size).
  assert (i * batch_size < length l)%nat by nia. lia.
Qed.

(** ** The [res] monad, continued *)

Lemma mapM_ext {A B : Type} (f g : A -> res B) (l : list A) :
  (forall a, f a = g a) -> mapM f l = mapM g l.
Proof.
  intros Hfg. induction l as [|a l IH]; [done |]. simpl. by rewrite Hfg, IH.
Qed.

Lemma mapM_Ret_2 {A B : Type} (f : A -> res B) (l : list A) (k : list B) :
  Forall2 (fun a b => f a = Ret b) l k -> mapM f l = Ret k.
Proof.
  induction 1 as [|a b l k Hab _ IH]; [done |]. simpl. by rewrite Hab, IH.
Qed.

Lemma mapM_Permutation {A B : Type} (f : A -> res B) (l1 l2 : list A)
    (k1 : list B) :
  l1 ≡ₚ l2 -> mapM f l1 = Ret k1 ->
  exists k2, mapM f l2 = Ret k2 /\ k1 ≡ₚ k2.
Proof.
  intros Hl. revert k1.
  induction Hl as [|a l1 l2 _ IH|a a' l|l1 l2 l3 _ IH1 _ IH2]; intros k1.
  - intros [= <-]. by exists [].
  - simpl. intros (b & Hb & (k & Hk & [= <-])%bind_Ret)%bind_Ret.
    destruct (IH k Hk) as (k2 & -> & Hk2). rewrite Hb.
    exists (b :: k2). split; [done |]. by constructor.
  - simpl. intros (b' & Hb' & H)%bind_Ret.
    apply bind_Ret in H as (k & H & [= <-]).
    apply bind_Ret in H as (b & Hb & H).
    apply bind_Ret in H as (k' & Hk' & [= <-]).
    rewrite Hb, Hb', Hk'. eexists. split; [done |]. apply perm_swap.
  - intros Hk1. destruct (IH1 k1 Hk1) as (k2 & Hk2 & H12).
    destruct (IH2 k2 Hk2) as (k3 & Hk3 & H23).
    exists k3. split; [done |]. by etrans.
Qed.

Lemma mapM_concat {A B : Type} (f : A -> res B) (ls : list (list A))
    (ks : list (list B)) :
  mapM (mapM f) ls = Ret ks -> mapM f (concat ls) = Ret (concat ks).
Proof.
  revert ks. induction ls as [|l ls IH]; intros ks.
  - by intros [= <-].
  - simpl. intros (k & Hk & (ks' & Hks' & [= <-])%bind_Ret)%bind_Ret.
    apply mapM_Ret_2. simpl. apply Forall2_app.
    + by apply mapM_Ret.
    + by apply mapM_Ret, IH.
Qed.

(** ** The input pipe, continued *)

Section InputPipeMore.

Variable serialized : Type.
Variable parse_single_example : serialized -> res example.
Variable PIPE_EXTRA_DATA_NAMES : list string.
Variable mapping_t : Type.
Variable mapping_eqb : mapping_t -> mapping_t -> bool.
Variables INTERLEAVE FLAT_MAP : mapping_t.
Variable read_records : string -> option string -> list serialized.
Variable cpu_count : nat.
Variable now : Z.
Variable file_order : nat -> list string -> list string.
Hypothesis file_order_perm : forall e l, Permutation (file_order e l) l.
Variable batch_shuffle :
  nat -> Z -> (nat -> res (list pulled)) -> nat -> res (list pulled).

Local Abbreviation pipe :=
  (setup_input_pipe serialized parse_single_example PIPE_EXTRA_DATA_NAMES
     mapping_t mapping_eqb INTERLEAVE FLAT_MAP read_records cpu_count now
     file_order batch_shuffle).

Local Abbreviation file_dataset :=
  (_new_tfrecord_dataset serialized parse_single_example
     PIPE_EXTRA_DATA_NAMES read_records).

Variable in_type : hits_kind.
Variable out_class_bins : list Q.
Variable compression_type : option string.

Local Abbreviation map_fn :=
  (fun filename : string =>
     file_dataset filename compression_type cpu_count in_type
       (length out_class_bins + 1)%nat out_class_bins).

Local Abbreviation total := (total_records read_records compression_type).

Lemma map_fn_length (f : string) :
  length (map_fn f) = length (read_records f compression_type).
Proof. unfold _new_tfrecord_dataset. by rewrite length_map. Qed.

Lemma total_file_order (e : nat) (feed : list string) :
  total (file_order e feed) = total feed.
Proof. unfold total_records. by rewrite file_order_perm. Qed.

Lemma flat_map_length (fs : list string) :
  length (concat (map map_fn fs)) = total fs.
Proof.
  unfold total_records. induction fs as [|f fs IH]; [done |].
  simpl. by rewrite length_app, IH, map_fn_length.
Qed.

Lemma interleave_length (n : nat) (fs : list string) :
  n <> 0%nat ->
  length (data.cycle map_fn 1 (replicate n None) 0 fs) = total fs.
Proof.
  intros Hn. rewrite cycle_length by (by destruct n).
  rewrite <- flat_map_length.
  replace (sum_list_with _ (replicate n None)) with 0%nat
    by (clear; induction n; simpl; auto).
  simpl. induction fs as [|f fs IH]; [done |].
  simpl. rewrite length_app. by f_equal.
Qed.

(** The expansion the pipe uses for a mapping type it accepts. *)
Local Abbreviation dataset_of files_n mapping_type :=
  (if mapping_eqb mapping_type INTERLEAVE
   then data.interleave map_fn files_n 1
   else data.flat_map map_fn).

(** Either expansion gives all the records of the files of one pass. *)
Lemma dataset_of_stream (files_n : nat) (mapping_type : mapping_t)
    (fs : list string) :
  files_n <> 0%nat ->
  exists s, dataset_of files_n mapping_type fs = Ret s
            /\ length s = total fs /\ s ≡ₚ concat (map map_fn fs).
Proof.
  intros Hn. destruct (mapping_eqb mapping_type INTERLEAVE).
  - unfold data.interleave.
    destruct (decide (files_n = 0%nat)); [done |]. simpl.
    eexists. split; [done |]. split; [by apply interleave_length |].
    rewrite cycle_Permutation by (by destruct files_n).
    replace (concat (map _ (replicate files_n None)))
      with (@nil (sourced (res event)))
      by (clear; induction files_n; simpl; auto).
    done.
  - eexists. split; [done |]. split; [|done]. apply flat_map_length.
Qed.

(** With a single slot, interleaving is concatenation. *)
Lemma dataset_of_single (mapping_type : mapping_t) (fs : list string) :
  dataset_of 1%nat mapping_type fs = Ret (concat (map map_fn fs)).
Proof.
  destruct (mapping_eqb mapping_type INTERLEAVE); [|done].
  unfold data.interleave. simpl. by rewrite cycle_one_slot.
Qed.

(** What a pipe that was set up does when it is pulled. *)
Lemma pipe_Ret (files_n : nat) (name : string) (batch_size : option nat)
    (shuffle : bool) (reps : Z) (mapping_type : mapping_t)
    (files_placeholder : placeholder) (it : iterator) :
  pipe files_n name in_type out_class_bins compression_type batch_size
       shuffle reps mapping_type = Ret (files_placeholder, it) ->
  forall feed n,
    it feed n =
    if decide (length feed = files_n) then
      if decide (files_n = 0%nat)
      then Raise (InvalidArgumentError
                    "buffer_size must be greater than zero.")
      else
        let repeated :=
          data.repeat reps
            (fun e => dataset_of files_n mapping_type (file_order e feed)) in
        match batch_size with
        | None => es ← repeated n; mapM (fun e => One <$> deliver e) es
        | Some batch_size =>
            if decide (batch_size = 0%nat)
            then Raise (InvalidArgumentError
                          "Batch size must be greater than zero.")
            else
              let batched m :=
                es ← repeated (m * batch_size)%nat;
                mapM (fun b => Many <$> mapM deliver b)
                     (data.batch batch_size es) in
              if shuffle
              then batch_shuffle batch_size now batched n
              else batched n
        end
    else Raise (ValueError "Cannot feed value: shape mismatch").
Proof.
  unfold setup_input_pipe.
  destruct (mapping_eqb mapping_type INTERLEAVE) eqn:Hi;
    [|destruct (mapping_eqb mapping_type FLAT_MAP) eqn:Hf; [|done]];
    by intros [= <- <-].
Qed.

(** The first [n] elements of a repeated dataset whose passes all have
    [size] elements. *)
Lemma repeat_Ret {X : Type} (count : Z) (epoch : nat -> res (list X))
    (size n : nat) :
  (forall e, exists s, epoch e = Ret s /\ length s = size) ->
  exists es, data.repeat count epoch n = Ret es
    /\ length es = (if (count <? 0)%Z
                    then (if decide (size = 0%nat) then 0%nat else n)
                    else n `min` (Z.to_nat count * size))%nat.
Proof.
  intros Hepoch. unfold data.repeat.
  set (passes := if (count <? 0)%Z then n else Z.to_nat count).
  assert (exists ss, mapM epoch (seq 0 passes) = Ret ss
                     /\ length (concat ss) = (passes * size)%nat)
    as (ss & -> & Hss).
  { generalize 0%nat. induction passes as [|p IH]; intros start.
    - by exists [].
    - destruct (Hepoch start) as (s & Hs & Hsize).
      destruct (IH (S start)) as (ss & Hss & Hlen).
      exists (s :: ss). simpl. rewrite Hs, Hss. split; [done |].
      rewrite length_app, Hlen, Hsize. lia. }
  eexists. split; [done |]. rewrite length_take, Hss. unfold passes.
  destruct (count <? 0)%Z; [|done].
  destruct (decide (size = 0%nat)) as [-> |]; [lia |].
  apply Nat.min_l. nia.
Qed.

(** A single pass. *)
Lemma repeat_once {X : Type} (epoch : nat -> res (list X)) (n : nat)
    (s : list X) :
  epoch 0%nat = Ret s -> data.repeat 1 epoch n = Ret (take n s).
Proof.
  intros Hs. unfold data.repeat. simpl. rewrite Hs. simpl.
  by rewrite app_nil_r.
Qed.

Lemma delivered_events (es : list (sourced (res event))) (l : list pulled) :
  mapM (fun e => One <$> deliver e) es = Ret l <->
  exists ds, mapM deliver es = Ret ds /\ l = map One ds.
Proof.
  split.
  - intros H%mapM_Ret. induction H as [|e p es l Hp _ (ds & Hds & ->)].
    + by exists [].
    + apply fmap_Ret in Hp as (d & Hd & ->). exists (d :: ds).
      simpl. by rewrite Hd, Hds.
  - intros (ds & H%mapM_Ret & ->). apply mapM_Ret_2.
    induction H as [|e d es ds Hd _ IH]; constructor; [|done].
    by rewrite Hd.
Qed.

Lemma events_One (ds : list (sourced event)) :
  concat (map events (map One ds)) = ds.
Proof. induction ds as [|d ds IH]; [done |]. simpl. by f_equal. Qed.

(** X5: the mapping type changes the order of the events, not the events:
    pulled to the end of a single pass without batching, the pipe gives
    under INTERLEAVE a rearrangement of what it gives under FLAT_MAP, with
    nothing lost and nothing repeated. *)
Theorem mapping_types_same_events (files_n : nat) (name : string)
    (shuffle : bool) (mapping_type1 mapping_type2 : mapping_t)
    (feed : list string) (n : nat) (files_placeholder1 : placeholder)
    (it1 : iterator) (files_placeholder2 : placeholder) (it2 : iterator)
    (l1 : list pulled) :
  pipe files_n name in_type out_class_bins compression_type None shuffle 1
       mapping_type1 = Ret (files_placeholder1, it1) ->
  pipe files_n name in_type out_class_bins compression_type None shuffle 1
       mapping_type2 = Ret (files_placeholder2, it2) ->
  (total feed <= n)%nat ->
  it1 feed n = Ret l1 ->
  exists l2, it2 feed n = Ret l2 /\ l1 ≡ₚ l2.
Proof.
  intros Hpipe1 Hpipe2 Hn Hl1.
  rewrite (pipe_Ret _ _ _ _ _ _ _ _ Hpipe1) in Hl1.
  rewrite (pipe_Ret _ _ _ _ _ _ _ _ Hpipe2).
  destruct (decide (length feed = files_n)); [|done].
  destruct (decide (files_n = 0%nat)) as [|Hn0]; [done |]. cbv zeta in *.
  destruct (dataset_of_stream files_n mapping_type1 (file_order 0 feed) Hn0)
    as (s1 & Hs1 & Hlen1 & Hperm1).
  destruct (dataset_of_stream files_n mapping_type2 (file_order 0 feed) Hn0)
    as (s2 & Hs2 & Hlen2 & Hperm2).
  rewrite (repeat_once _ _ s1) in Hl1 by done.
  rewrite (repeat_once _ _ s2) by done.
  rewrite total_file_order in Hlen1, Hlen2.
  rewrite take_ge in Hl1 by lia. rewrite take_ge by lia.
  rewrite bind_Ret_l in *.
  eapply mapM_Permutation; [|done]. by rewrite Hperm1, Hperm2.
Qed.

(** X6: under FLAT_MAP the files are read one after the other, in the
    order the shuffle put them: the pulls of a single pass without
    batching come from the first file as often as it has records, then
    from the second, and so on. *)
Theorem flat_map_file_after_file (files_n : nat) (name : string)
    (shuffle : bool) (mapping_type : mapping_t) (feed : list string)
    (n : nat) (files_placeholder : placeholder) (it : iterator)
    (l : list pulled) :
  mapping_eqb mapping_type INTERLEAVE = false ->
  pipe files_n name in_type out_class_bins compression_type None shuffle 1
       mapping_type = Ret (files_placeholder, it) ->
  it feed n = Ret l ->
  concat (map sources l)
  = take n (concat (map (fun f => replicate
                                    (length (read_records f compression_type))
                                    f)
                        (file_order 0 feed))).
Proof.
  intros Hmt Hpipe Hl.
  rewrite (pipe_Ret _ _ _ _ _ _ _ _ Hpipe), Hmt in Hl.
  destruct (decide (length feed = files_n)); [|done].
  destruct (decide (files_n = 0%nat)); [done |]. cbv zeta in Hl.
  rewrite (repeat_once _ _ (concat (map map_fn (file_order 0 feed)))) in Hl
    by done.
  rewrite bind_Ret_l in Hl. apply delivered_sources in Hl.
  rewrite Hl, concat_singletons, fmap_take. f_equal.
  rewrite <- map_fmap, concat_map, map_map. f_equal.
  apply map_ext. intros f. rewrite map_fmap. apply file_dataset_sources.
Qed.

(** X7: with a single file the mapping type makes no difference: without
    the shuffle of batches, the two strategies give the same result at
    every pull. *)
Theorem single_file_mapping_types_agree (name : string)
    (batch_size : option nat) (reps : Z)
    (mapping_type1 mapping_type2 : mapping_t)
    (files_placeholder1 : placeholder) (it1 : iterator)
    (files_placeholder2 : placeholder) (it2 : iterator) :
  pipe 1 name in_type out_class_bins compression_type batch_size false reps
       mapping_type1 = Ret (files_placeholder1, it1) ->
  pipe 1 name in_type out_class_bins compression_type batch_size false reps
       mapping_type2 = Ret (files_placeholder2, it2) ->
  forall feed n, it1 feed n = it2 feed n.
Proof.
  intros Hpipe1 Hpipe2 feed n.
  rewrite (pipe_Ret _ _ _ _ _ _ _ _ Hpipe1), (pipe_Ret _ _ _ _ _ _ _ _ Hpipe2).
  destruct (decide (length feed = 1%nat)); [|done].
  destruct (decide (1%nat = 0%nat)); [done |]. cbv zeta.
  assert (forall m,
            data.repeat reps
              (fun e => dataset_of 1%nat mapping_type1 (file_order e feed)) m
            = data.repeat reps
                (fun e => dataset_of 1%nat mapping_type2 (file_order e feed)) m)
    as Hrepeat.
  { intros m. unfold data.repeat. f_equal. apply mapM_ext. intros pass.
    by rewrite !dataset_of_single. }
  destruct batch_size as [b|]; [|by rewrite Hrepeat].
  destruct (decide (b = 0%nat)); [done |]. by rewrite Hrepeat.
Qed.

(** X8: batching groups the events without losing or reordering them.  When
    the first [n] batches of size [batch_size] can be pulled, the first
    [n * batch_size] events can be pulled one by one from the pipe set up
    without batching, and they are the events of the batches put end to
    end; each batch holds at least one and at most [batch_size] events. *)
Theorem batches_hold_the_events (files_n : nat) (name : string)
    (batch_size : nat) (reps : Z) (mapping_type : mapping_t)
    (feed : list string) (n : nat) (files_placeholder1 : placeholder)
    (it_batched : iterator) (files_placeholder2 : placeholder)
    (it_single : iterator) (batches : list pulled) :
  pipe files_n name in_type out_class_bins compression_type
       (Some batch_size) false reps mapping_type
    = Ret (files_placeholder1, it_batched) ->
  pipe files_n name in_type out_class_bins compression_type
       None false reps mapping_type
    = Ret (files_placeholder2, it_single) ->
  it_batched feed n = Ret batches ->
  exists singles,
    it_single feed (n * batch_size)%nat = Ret singles
    /\ concat (map events batches) = concat (map events singles)
    /\ Forall (fun p => exists b, p = Many b
                                  /\ (0 < length b <= batch_size)%nat)
              batches.
Proof.
  intros Hpipe1 Hpipe2 Hb.
  rewrite (pipe_Ret _ _ _ _ _ _ _ _ Hpipe1) in Hb.
  rewrite (pipe_Ret _ _ _ _ _ _ _ _ Hpipe2).
  destruct (decide (length feed = files_n)); [|done].
  destruct (decide (files_n = 0%nat)); [done |].
  destruct (decide (batch_size = 0%nat)); [done |]. cbv zeta in *.
  apply bind_Ret in Hb as (es & -> & Hb). rewrite bind_Ret_l.
  pose proof (batch_sizes batch_size es ltac:(lia)) as Hsizes.
  pose proof (batch_concat batch_size es ltac:(lia)) as Hconcat.
  revert Hb Hsizes Hconcat. generalize (data.batch batch_size es).
  intros bs Hb Hsizes <-.
  revert batches Hb.
  induction Hsizes as [|b bs Hb_size _ IH]; intros batches.
  - intros [= <-]. by exists [].
  - simpl. intros (p & Hp & (ps & Hps & [= <-])%bind_Ret)%bind_Ret.
    apply fmap_Ret in Hp as (ds & Hds & ->).
    destruct (IH ps Hps) as (singles & Hsingles & Hevents & Hall).
    apply delivered_events in Hsingles as (ds' & Hds' & ->).
    exists (map One (ds ++ ds')). split_and!.
    + apply delivered_events. exists (ds ++ ds'). split; [|done].
      apply mapM_Ret_2, Forall2_app; by apply mapM_Ret.
    + simpl. rewrite Hevents, !events_One. done.
    + constructor; [|done]. exists ds. split; [done |].
      apply mapM_Ret, Forall2_length in Hds. lia.
Qed.

(** X9: how many events there are to pull.  Without batching, [n] pulls
    that succeed give [n] events or, when the stream ends before, all of
    them: [reps] times the number of records in the files for [reps >= 0];
    with a negative [reps] the stream only ends if the files are empty. *)
Theorem pulls_count (files_n : nat) (name : string) (shuffle : bool)
    (reps : Z) (mapping_type : mapping_t) (feed : list string) (n : nat)
    (files_placeholder : placeholder) (it : iterator) (l : list pulled) :
  pipe files_n name in_type out_class_bins compression_type None shuffle
       reps mapping_type = Ret (files_placeholder, it) ->
  it feed n = Ret l ->
  length l = (if (reps <? 0)%Z
              then (if decide (total feed = 0%nat) then 0%nat else n)
              else n `min` (Z.to_nat reps * total feed))%nat.
Proof.
  intros Hpipe Hl. rewrite (pipe_Ret _ _ _ _ _ _ _ _ Hpipe) in Hl.
  destruct (decide (length feed = files_n)); [|done].
  destruct (decide (files_n = 0%nat)) as [|Hn0]; [done |]. cbv zeta in Hl.
  destruct (repeat_Ret reps
              (fun e => dataset_of files_n mapping_type (file_order e feed))
              (total feed) n) as (es & Hes & Hlen).
  { intros pass.
    destruct (dataset_of_stream files_n mapping_type
                (file_order pass feed) Hn0) as (s & Hs & Hlen & _).
    exists s. by rewrite <- (total_file_order pass feed). }
  rewrite Hes, bind_Ret_l in Hl.
  apply mapM_Ret, Forall2_length in Hl. by rewrite <- Hl.
Qed.

End InputPipeMore.

Lemma mapping_types_same_events_witness :
  exists files_placeholder1 it1 files_placeholder2 it2 l1,
    sample_pipe_with 2 None unequal_files 1 0 = Ret (files_placeholder1, it1)
    /\ sample_pipe_with 2 None unequal_files 1 1
       = Ret (files_placeholder2, it2)
    /\ it1 ["A"; "B"] 4%nat = Ret l1
    /\ exists l2, it2 ["A"; "B"] 4%nat = Ret l2 /\ l1 ≡ₚ l2.
Proof.
  do 5 eexists. split; [reflexivity |]. split; [reflexivity |].
  split; [by vm_compute |].
  destruct (mapping_types_same_events example Ret [] nat Nat.eqb 0%nat 1%nat
              unequal_files 4%nat 0%Z (fun _ l => l)
              (fun _ _ => reflexivity _) (fun _ _ d => d) REDUCED
              [10%Q; 20%Q; 30%Q] None 2%nat "train" false 0%nat 1%nat
              ["A"; "B"] 4%nat _ _ _ _ _ eq_refl eq_refl (le_n 4) eq_refl)
    as (l2 & Hl2 & Hperm).
  exists l2. split; [exact Hl2 | exact Hperm].
Defined.

Lemma flat_map_file_after_file_witness :
  exists files_placeholder it l,
    sample_pipe_with 2 None unequal_files 1 1 = Ret (files_placeholder, it)
    /\ it ["A"; "B"] 4%nat = Ret l
    /\ concat (map sources l) = ["A"; "A"; "A"; "B"].
Proof.
  do 3 eexists. split; [reflexivity |]. split; [by vm_compute |].
  exact (flat_map_file_after_file example Ret [] nat Nat.eqb 0%nat 1%nat
             unequal_files 4%nat 0%Z (fun _ l => l) (fun _ _ d => d) REDUCED
             [10%Q; 20%Q; 30%Q] None 2%nat "train" false 1%nat ["A"; "B"]
             4%nat _ _ _ eq_refl eq_refl eq_refl).
Defined.

Lemma single_file_mapping_types_agree_witness :
  exists files_placeholder1 it1 files_placeholder2 it2,
    sample_pipe_with 1 (Some 2%nat) unequal_files 2 0
      = Ret (files_placeholder1, it1)
    /\ sample_pipe_with 1 (Some 2%nat) unequal_files 2 1
       = Ret (files_placeholder2, it2)
    /\ it1 ["A"] 3%nat = it2 ["A"] 3%nat.
Proof.
  do 4 eexists. split; [reflexivity |]. split; [reflexivity |].
  exact (single_file_mapping_types_agree example Ret [] nat Nat.eqb 0%nat
           1%nat unequal_files 4%nat 0%Z (fun _ l => l) (fun _ _ d => d)
           REDUCED [10%Q; 20%Q; 30%Q] None "train" (Some 2%nat) 2 0%nat
           1%nat _ _ _ _ eq_refl eq_refl ["A"] 3%nat).
Defined.

Lemma batches_hold_the_events_witness :
  exists files_placeholder1 it_batched files_placeholder2 it_single batches,
    sample_pipe_with 2 (Some 3%nat) equal_files 1 0
      = Ret (files_placeholder1, it_batched)
    /\ sample_pipe_with 2 None equal_files 1 0
       = Ret (files_placeholder2, it_single)
    /\ it_batched ["A"; "B"] 2%nat = Ret batches
    /\ map (fun p => length (events p)) batches = [3%nat; 1%nat]
    /\ exists singles,
         it_single ["A"; "B"] (2 * 3)%nat = Ret singles
         /\ concat (map events batches) = concat (map events singles).
Proof.
  do 5 eexists. split; [reflexivity |]. split; [reflexivity |].
  split; [by vm_compute |]. split; [reflexivity |].
  destruct (batches_hold_the_events example Ret [] nat Nat.eqb 0%nat 1%nat
              equal_files 4%nat 0%Z (fun _ l => l) (fun _ _ d => d) REDUCED
              [10%Q; 20%Q; 30%Q] None 2%nat "train" 3%nat 1 0%nat
              ["A"; "B"] 2%nat _ _ _ _ _ eq_refl eq_refl eq_refl)
    as (singles & Hsingles & Hevents & _).
  exists singles. split; [exact Hsingles | exact Hevents].
Defined.

Lemma pulls_count_witness :
  exists files_placeholder it l,
    sample_pipe_with 2 None equal_files 2 0 = Ret (files_placeholder, it)
    /\ it ["A"; "B"] 10%nat = Ret l
    /\ length l = 8%nat.
Proof.
  do 3 eexists. split; [reflexivity |]. split; [by vm_compute |].
  exact (pulls_count example Ret [] nat Nat.eqb 0%nat 1%nat equal_files
             4%nat 0%Z (fun _ l => l) (fun _ _ => reflexivity _)
             (fun _ _ d => d) REDUCED [10%Q; 20%Q; 30%Q] None 2%nat "train"
             false 2 0%nat ["A"; "B"] 10%nat _ _ _ eq_refl eq_refl).
Defined.

(** ** More on the parameter dict *)

Lemma getitem_setitem_is_Some (r : ref) (k k' : string) (v : pyval)
    (σ : store) :
  is_Some (σ !! r) ->
  is_Some (getitem r k' (setitem r k v σ))
  <-> is_Some (getitem r k' σ) \/ k' = k.
Proof.
  intros Hσ. destruct (decide (k = k')) as [<- | Hne].
  - rewrite getitem_setitem by done. split; [by right | by eexists].
  - rewrite getitem_setitem_ne by done. split; [by left |].
    by intros [? | ->].
Qed.

(** The constructor's overrides add no key and drop none. *)
Lemma override_keys (r : ref) (kw : list (string * pyval)) (k : string)
    (σ : store) :
  is_Some (getitem r k (OMTFRunner.override r kw σ))
  <-> is_Some (getitem r k σ).
Proof.
  revert σ. induction kw as [|[k' v'] kw IH]; intros σ; [done |].
  simpl. rewrite IH. unfold contains.
  case_bool_decide as Hk'; [|done].
  rewrite getitem_setitem_is_Some by (by eapply getitem_is_Some).
  split; [|by left]. by intros [? | ->].
Qed.

Lemma update_keys (r : ref) (var : list (string * pyval)) (k : string)
    (σ : store) :
  is_Some (σ !! r) ->
  is_Some (getitem r k (OMTFRunner.update r var σ))
  <-> is_Some (getitem r k σ) \/ k ∈ var.*1.
Proof.
  revert σ. induction var as [|[k' v'] var IH]; intros σ Hσ.
  { simpl. split; [by left |]. intros [? | H]; [done |].
    by apply elem_of_nil in H. }
  simpl. rewrite IH by (by apply setitem_is_Some).
  rewrite getitem_setitem_is_Some by done. rewrite elem_of_cons. tauto.
Qed.

(** A key that [var] names once gets the value [var] gives it. *)
Lemma update_named (r : ref) (var : list (string * pyval)) (k : string)
    (v : pyval) (σ : store) :
  NoDup var.*1 -> (k, v) ∈ var -> is_Some (σ !! r) ->
  getitem r k (OMTFRunner.update r var σ) = Some v.
Proof.
  revert σ. induction var as [|[k' v'] var IH]; intros σ Hnd Hkv Hσ.
  { by apply elem_of_nil in Hkv. }
  apply NoDup_cons in Hnd as [Hk' Hnd]. simpl in *.
  apply elem_of_cons in Hkv as [[= <- <-] | Hkv].
  - rewrite update_other by done. by apply getitem_setitem.
  - apply IH; [done | done | by apply setitem_is_Some].
Qed.

Section InitMore.

Variable OMTFDataset : Type.
Variable py_format : pyval -> string.

Local Abbreviation init := (OMTFRunner.__init__ OMTFDataset py_format).
Local Abbreviation param := (OMTFRunner.param OMTFDataset).
Local Abbreviation _update_params := (OMTFRunner._update_params OMTFDataset).

(** What a construction that returns has done. *)
Lemma init_Ret (dataset : OMTFDataset) (network : OMTFNN)
    (kw : list (string * pyval)) (timestamp : string) (σ σ' : store)
    (s : OMTFRunner.self OMTFDataset) :
  init dataset network kw timestamp σ = Ret (s, σ') ->
  exists pref,
    getitem OMTFRunner.DEFAULT_PARAMS_ref "sess_prefix"
      (OMTFRunner.override OMTFRunner.DEFAULT_PARAMS_ref kw σ) = Some pref
    /\ OMTFRunner.params s = OMTFRunner.DEFAULT_PARAMS_ref
    /\ σ' = OMTFRunner.update OMTFRunner.DEFAULT_PARAMS_ref
              [("timestamp", VStr timestamp);
               ("sess_name",
                VStr (py_format pref +:+ nn_name network +:+ "_"
                      +:+ timestamp));
               ("in_type", VHits (in_type network));
               ("out_class_bins", VBins (pt_class network));
               ("out_len", VInt (Z.of_nat (length (pt_class network)) + 1))]
              (OMTFRunner.override OMTFRunner.DEFAULT_PARAMS_ref kw σ).
Proof.
  unfold OMTFRunner.__init__.
  destruct (getitem _ "sess_prefix" _) as [pref|] eqn:Hpref; [|done].
  intros [= <- <-]. by exists pref.
Qed.

(** X10: a construction that returns leaves in the parameter dict the keys
    it found there and the five session variables, and no other key: a
    keyword argument that names no key of the dict is dropped. *)
Theorem init_keys (dataset : OMTFDataset) (network : OMTFNN)
    (kw : list (string * pyval)) (timestamp : string) (σ σ' : store)
    (s : OMTFRunner.self OMTFDataset) (k : string) :
  init dataset network kw timestamp σ = Ret (s, σ') ->
  is_Some (param s k σ')
  <-> is_Some (getitem OMTFRunner.DEFAULT_PARAMS_ref k σ)
      \/ k ∈ OMTFRunner.session_variables.
Proof.
  intros (pref & Hpref & Hs & ->)%init_Ret.
  unfold OMTFRunner.param. rewrite Hs, update_keys, override_keys; [done |].
  eapply getitem_is_Some. by rewrite Hpref.
Qed.

(** X11: whatever the keyword arguments, after a construction the session
    variables are those of the network: [out_class_bins] is its [pt_class],
    [out_len] one more than the number of its edges, [in_type] its input
    type; and [sess_name] is made of the [sess_prefix] the dict now holds,
    the network's name and the [timestamp] the dict now holds. *)
Theorem init_session_variables (dataset : OMTFDataset) (network : OMTFNN)
    (kw : list (string * pyval)) (timestamp : string) (σ σ' : store)
    (s : OMTFRunner.self OMTFDataset) :
  init dataset network kw timestamp σ = Ret (s, σ') ->
  param s "out_class_bins" σ' = Some (VBins (pt_class network))
  /\ param s "out_len" σ'
     = Some (VInt (Z.of_nat (length (pt_class network)) + 1))
  /\ param s "in_type" σ' = Some (VHits (in_type network))
  /\ param s "timestamp" σ' = Some (VStr timestamp)
  /\ exists pref,
       param s "sess_prefix" σ' = Some pref
       /\ param s "sess_name" σ'
          = Some (VStr (py_format pref +:+ nn_name network +:+ "_"
                        +:+ timestamp)).
Proof.
  intros (pref & Hpref & Hs & ->)%init_Ret. unfold OMTFRunner.param.
  rewrite Hs.
  assert (is_Some (OMTFRunner.override OMTFRunner.DEFAULT_PARAMS_ref kw σ
                   !! OMTFRunner.DEFAULT_PARAMS_ref)) as Hσ.
  { eapply getitem_is_Some. by rewrite Hpref. }
  split_and!.
  - apply update_named; [compute_done | | done].
    do 3 apply list_elem_of_further. apply list_elem_of_here.
  - apply update_named; [compute_done | | done].
    do 4 apply list_elem_of_further. apply list_elem_of_here.
  - apply update_named; [compute_done | | done].
    do 2 apply list_elem_of_further. apply list_elem_of_here.
  - apply update_named; [compute_done | | done]. apply list_elem_of_here.
  - exists pref. split.
    + rewrite update_other; [done | compute_done].
    + apply update_named; [compute_done | | done].
      apply list_elem_of_further, list_elem_of_here.
Qed.


End InitMore.

Lemma init_keys_witness :
  exists (s : OMTFRunner.self unit) (σ' : store),
    OMTFRunner.__init__ unit sample_format () sample_network
      [("momentum", VFloat 0.9)] "2018-01-01-00-00-00" OMTFRunner.class_store
      = Ret (s, σ')
    /\ OMTFRunner.param unit s "momentum" σ' = None
    /\ (is_Some (OMTFRunner.param unit s "out_len" σ')
        <-> is_Some (getitem OMTFRunner.DEFAULT_PARAMS_ref "out_len"
                       OMTFRunner.class_store)
            \/ "out_len" ∈ OMTFRunner.session_variables).
Proof.
  do 2 eexists. split; [reflexivity |]. split; [reflexivity |].
  exact (init_keys unit sample_format () sample_network
           [("momentum", VFloat 0.9)] "2018-01-01-00-00-00"
           OMTFRunner.class_store _ _ "out_len" eq_refl).
Defined.

Lemma init_session_variables_witness :
  exists (s1 s2 : OMTFRunner.self unit) (σ1 σ2 : store),
    OMTFRunner.__init__ unit sample_format () sample_network []
      "2018-01-01-00-00-00" OMTFRunner.class_store = Ret (s1, σ1)
    /\ OMTFRunner.__init__ unit sample_format () sample_network
         [("out_len", VInt 99); ("sess_prefix", VStr "run_")]
         "2018-01-02-00-00-00" σ1 = Ret (s2, σ2)
    /\ OMTFRunner.param unit s2 "out_len" σ2 = Some (VInt 4)
    /\ OMTFRunner.param unit s2 "sess_name" σ2
       = Some (VStr "run_net_2018-01-02-00-00-00").
Proof.
  do 4 eexists. split; [reflexivity |].
  match goal with
  | |- OMTFRunner.__init__ _ _ _ _ _ _ ?σ1 = _ /\ _ =>
      destruct (init_session_variables unit sample_format () sample_network
                  [("out_len", VInt 99); ("sess_prefix", VStr "run_")]
                  "2018-01-02-00-00-00" σ1 _ _ eq_refl)
        as (_ & Hlen & _ & _ & _)
  end.
  split; [reflexivity |]. split; [exact Hlen | reflexivity].
Defined.


(** ** More on the training loop *)

Section TrainMore.

Variable env : OMTFRunner.train_env.
Variable opt : OMTFRunner.options.

Local Abbreviation body := (OMTFRunner.body env opt).
Local Abbreviation loop := (OMTFRunner.loop env opt).

(** X13: with a step budget the body of the loop never runs at a step
    beyond [steps].  From any start [i0 >= 1], a loop that stops does so at
    a step up to [steps + 1], and at [steps + 1] exactly when the budget is
    what stops it; an exception escapes at a step up to [steps]; and passes
    that do not end the loop are fewer than the steps left. *)
Theorem loop_within_budget (fuel : nat) (i0 : Z) :
  (0 <= OMTFRunner.steps opt)%Z -> (1 <= i0 <= OMTFRunner.steps opt + 1)%Z ->
  match loop fuel i0 with
  | Some (OMTFRunner.Stopped why i) =>
      (i0 <= i <= OMTFRunner.steps opt + 1)%Z
      /\ (why = OMTFRunner.BudgetReached <-> i = OMTFRunner.steps opt + 1)%Z
  | Some (OMTFRunner.Escaped e i) => (i0 <= i <= OMTFRunner.steps opt)%Z
  | None => (i0 + Z.of_nat fuel <= OMTFRunner.steps opt + 1)%Z
  end.
Proof.
  intros Hsteps. revert i0. induction fuel as [|fuel IH]; intros i0 Hi0.
  { simpl. lia. }
  cbn [OMTFRunner.loop].
  destruct ((i0 <=? _)%Z || _) eqn:Hcond.
  - apply in_budget_test in Hcond. unfold in_budget in Hcond.
    destruct (body i0) as [[why|]|e] eqn:Hbody.
    + split; [lia |]. split; [|lia]. intros ->.
      apply body_break in Hbody. by destruct Hbody as [[? _] | [? _]].
    + specialize (IH (i0 + 1)%Z ltac:(lia)).
      destruct (OMTFRunner.loop env opt fuel (i0 + 1)) as [[why i | e i]|].
      * destruct IH as [Hi Hwhy]. split; [lia | done].
      * lia.
      * lia.
    + destruct e; try lia. split; [lia |]. split; [done | lia].
  - apply not_true_iff_false in Hcond. rewrite in_budget_test in Hcond.
    unfold in_budget in Hcond. split; [lia |]. split; [lia | done].
Qed.

(** X14: with [acc_ival] zero the first training step that completes is
    the last.  In a session that gets as far as the loop (the log mode asks
    for no summary writer), [i % opt.acc_ival] raises [ZeroDivisionError],
    and [train] ends with it, the log files open and the model neither
    finished nor saved. *)
Theorem train_zero_acc_ival (fuel : nat) :
  OMTFRunner.acc_ival opt = 0%Z ->
  OMTFRunner.log opt ∉ ["tb"; "both"] ->
  OMTFRunner.makedirs env = Ret () -> OMTFRunner.setup env = Ret () ->
  in_budget opt 1 ->
  OMTFRunner.fetch env 1 = Ret true -> OMTFRunner.run_step env 1 = Ret () ->
  (OMTFRunner.debug opt = true -> OMTFRunner.show_dbg env 1 = Ret false) ->
  (0 < fuel)%nat ->
  OMTFRunner.train env opt fuel
  = Some (map OMTFRunner.OpenLog
            (omap snd (OMTFRunner.log_hnd_init (OMTFRunner.log opt) TRAIN)),
          Raise ZeroDivisionError).
Proof.
  intros Hacc Hlog Hmakedirs Hsetup Hbudget Hfetch Hrun Hdbg Hfuel.
  destruct fuel as [|fuel]; [lia |].
  rewrite train_initialized, Hsetup, _log_init_opened by done.
  cbn [OMTFRunner.loop].
  apply in_budget_test in Hbudget. rewrite Hbudget.
  unfold OMTFRunner.body. rewrite Hfetch, Hrun, Hacc. simpl.
  destruct (OMTFRunner.debug opt); [rewrite Hdbg by done |]; done.
Qed.


(** At a step that [acc_ival] does not divide the body does not look at
    the validation section. *)
Lemma body_with_validate (validate : Z -> res unit) (i : Z) :
  (0 < i < Z.abs (OMTFRunner.acc_ival opt))%Z ->
  OMTFRunner.body (with_validate env validate) opt i = body i.
Proof.
  intros Hi. unfold OMTFRunner.body. simpl.
  destruct (OMTFRunner.fetch env i) as [[|]|]; simpl; [|done ..].
  destruct (OMTFRunner.run_step env i) as [[]|]; simpl; [|done].
  assert ((i mod OMTFRunner.acc_ival opt =? 0)%Z = false) as ->; [|done].
  apply Z.eqb_neq. intros Hmod.
  apply Z.mod_divide in Hmod; [|lia].
  apply Z.divide_abs_l in Hmod. apply Z.divide_pos_le in Hmod; lia.
Qed.

Lemma loop_with_validate (validate : Z -> res unit) (fuel : nat) (i0 : Z) :
  (0 <= OMTFRunner.steps opt < Z.abs (OMTFRunner.acc_ival opt))%Z ->
  (0 < i0)%Z ->
  OMTFRunner.loop (with_validate env validate) opt fuel i0 = loop fuel i0.
Proof.
  intros Hsteps. revert i0. induction fuel as [|fuel IH]; intros i0 Hi0.
  { done. }
  cbn [OMTFRunner.loop].
  destruct ((i0 <=? _)%Z || _) eqn:Hcond; [|done].
  apply in_budget_test in Hcond. unfold in_budget in Hcond.
  rewrite body_with_validate by lia.
  destruct (body i0) as [[why|]|e]; [done | | done]. apply IH. lia.
Qed.

(** X15: a run whose step budget is below [acc_ival] never validates:
    whatever the validation section would do, [train] does the same. *)
Theorem train_never_validates (validate : Z -> res unit) (fuel : nat) :
  (0 <= OMTFRunner.steps opt < Z.abs (OMTFRunner.acc_ival opt))%Z ->
  OMTFRunner.train (with_validate env validate) opt fuel
  = OMTFRunner.train env opt fuel.
Proof.
  intros Hsteps. unfold OMTFRunner.train. simpl.
  destruct (OMTFRunner._log_init _ _) as [opened initialized].
  rewrite loop_with_validate by (done || lia). done.
Qed.

End TrainMore.

Lemma loop_within_budget_witness :
  let opt := {| OMTFRunner.steps := 2; OMTFRunner.acc_ival := 1000;
                OMTFRunner.debug := false; OMTFRunner.log := "none" |} in
  match OMTFRunner.loop sample_session opt 5 1 with
  | Some (OMTFRunner.Stopped why i) =>
      (1 <= i <= 2 + 1)%Z /\ (why = OMTFRunner.BudgetReached <-> i = 2 + 1)%Z
  | Some (OMTFRunner.Escaped e i) => (1 <= i <= 2)%Z
  | None => (1 + Z.of_nat 5 <= 2 + 1)%Z
  end.
Proof.
  intros opt.
  apply (loop_within_budget sample_session opt 5 1); simpl; lia.
Defined.

Lemma train_zero_acc_ival_witness :
  let opt := {| OMTFRunner.steps := -1; OMTFRunner.acc_ival := 0;
                OMTFRunner.debug := false; OMTFRunner.log := "txt" |} in
  OMTFRunner.train sample_session opt 1
  = Some ([OMTFRunner.OpenLog "train.txt"; OMTFRunner.OpenLog "valid.txt"],
          Raise ZeroDivisionError).
Proof.
  intros opt.
  apply (train_zero_acc_ival sample_session opt 1);
    try reflexivity; try done.
  - clear. compute_done.
  - right. simpl. lia.
  - lia.
Defined.


Lemma train_never_validates_witness :
  let opt := {| OMTFRunner.steps := 2; OMTFRunner.acc_ival := 1000;
                OMTFRunner.debug := false; OMTFRunner.log := "none" |} in
  OMTFRunner.train
    (with_validate sample_session (fun _ => Raise (OtherError "validation")))
    opt 3
  = OMTFRunner.train sample_session opt 3.
Proof.
  intros opt.
  apply (train_never_validates sample_session opt); simpl; lia.
Defined.

(** ** More on test *)

Section TestMore.

Variable OMTFDataset : Type.
Variable py_format : pyval -> string.

(** Every call of [test] ends with an exception. *)
Lemma test_raises (s : OMTFRunner.self OMTFDataset)
    (kw : list (string * pyval)) (env : OMTFRunner.test_env) (σ : store) :
  exists e, (OMTFRunner.test OMTFDataset s kw env σ).1 = Raise e.
Proof.
  unfold OMTFRunner.test. simpl.
  destruct (OMTFRunner.param _ _ _ _) as [[| | | |name| |]|];
    try (by eexists).
  destruct (OMTFRunner.make_pipe env); [|by eexists]. simpl.
  destruct (OMTFRunner.restore env) as [[|? [|? [|? [|? [|? ?]]]]]|];
    by eexists.
Qed.

(** X16: [test_many_models] reports on no model.  Given at least one
    model it ends with an exception, the one that the first model alone
    ends with: no later model gets a runner. *)
Theorem test_many_models_first_model (dataset : OMTFDataset)
    (model : OMTFNN) (models_list : list OMTFNN)
    (kw : list (string * pyval)) (strftime : nat -> string)
    (env : OMTFNN -> OMTFRunner.test_env) (σ : store) :
  exists e,
    OMTFRunner.test_many_models OMTFDataset py_format dataset
      (model :: models_list) kw strftime env σ = Raise e
    /\ OMTFRunner.test_many_models OMTFDataset py_format dataset
         [model] kw strftime env σ = Raise e.
Proof.
  unfold OMTFRunner.test_many_models. cbn [OMTFRunner.for_model].
  destruct (OMTFRunner.__init__ _ _ _ _ _ _ _) as [[runner σ1]|e];
    [|by exists e].
  rewrite !bind_Ret_l. cbv beta iota.
  destruct (test_raises runner [] (env model) σ1) as [e He].
  destruct (OMTFRunner.test _ _ _ _ _) as [r σ2]. simpl in He. subst r.
  by exists e.
Qed.

(** X17: with a bool for [verbose], written by [_update_params], the
    printer of level 1 prints its line exactly when [verbose] is true, and
    the printers of the levels from 2 on print nothing. *)
Theorem verbose_bool_levels (hits_ge : hits_kind -> Z -> res bool)
    (s : OMTFRunner.self OMTFDataset) (params_dict : list (string * pyval))
    (b : bool) (lvl : Z) (str : string) (σ : store) :
  is_Some (σ !! OMTFRunner.params s) ->
  NoDup params_dict.*1 -> ("verbose", VBool b) ∈ params_dict ->
  let σ' := OMTFRunner._update_params OMTFDataset s params_dict σ in
  let vp := OMTFRunner._get_verbose_printer OMTFDataset hits_ge s in
  vp 1%Z str σ' = Ret (if b then ["OMTFRunner: " +:+ str] else [])
  /\ ((2 <= lvl)%Z -> vp lvl str σ' = Ret []).
Proof.
  intros Hσ Hnd Hkv σ' vp.
  assert (OMTFRunner.param OMTFDataset s "verbose" σ' = Some (VBool b))
    as Hverbose by (by apply update_named).
  unfold vp, OMTFRunner._get_verbose_printer. rewrite Hverbose. simpl.
  split; [by destruct b |]. intros Hlvl.
  assert ((lvl <=? Z.b2z b)%Z = false) as ->; [|done].
  apply Z.leb_gt. destruct b; simpl; lia.
Qed.

End TestMore.

Lemma verbose_bool_levels_witness :
  exists (s : OMTFRunner.self unit) (σ : store),
    OMTFRunner.__init__ unit sample_format () sample_network []
      "2018-01-01-00-00-00" OMTFRunner.class_store = Ret (s, σ)
    /\ let σ' := OMTFRunner._update_params unit s [("verbose", VBool true)] σ in
       let vp := OMTFRunner._get_verbose_printer unit
                   (fun _ _ => Ret false) s in
       vp 1%Z "Model saved!" σ' = Ret ["OMTFRunner: Model saved!"]
       /\ vp 2%Z "Training step: 1" σ' = Ret [].
Proof.
  do 2 eexists. split; [reflexivity |]. intros σ' vp.
  destruct (verbose_bool_levels unit (fun _ _ => Ret false)
              {| OMTFRunner.dataset := (); OMTFRunner.network := sample_network;
                 OMTFRunner.params := OMTFRunner.DEFAULT_PARAMS_ref |}
              [("verbose", VBool true)] true 2 "Training step: 1"
              (OMTFRunner.update OMTFRunner.DEFAULT_PARAMS_ref
                 [("timestamp", VStr "2018-01-01-00-00-00");
                  ("sess_name", VStr "net_2018-01-01-00-00-00");
                  ("in_type", VHits REDUCED);
                  ("out_class_bins", VBins [10%Q; 20%Q; 30%Q]);
                  ("out_len", VInt 4)]
                 OMTFRunner.class_store))
    as [_ H2].
  - by eexists.
  - apply NoDup_singleton.
  - apply list_elem_of_singleton. reflexivity.
  - split; [reflexivity |]. apply H2. lia.
Defined.
